(** * darwin.dataset.utils: dataset splitting

    A shallow embedding of [darwin/dataset/utils.py] and the properties of
    its split routines: the cross-contamination repair, the stratified and
    the random partitioner, the split identity, the orchestration over the
    file system and the class list reader.

    Conventions of the embedding.
    - numpy integer arrays are [list Z], label arrays are [list string].
    - A Python exception is a value [Raise e]; code that has effects lives
      in the monad [M S], a state monad over [S] whose state survives an
      exception (what was written before a [raise] stays written).
    - [np.random.rand() > 0.5] reads numpy's ambient generator. The sequence
      of its outcomes is a tape [coin : nat -> bool]; the state is the number
      of draws made so far.
    - [sklearn.model_selection.train_test_split] and
      [np.random.permutation] are library code: they are parameters.
    - A Python float is the rational number it denotes ([Q]). Every
      arithmetic operation on floats gives the double nearest to the exact
      result ([fl]); comparisons are exact; [int] truncates towards zero.
      Infinities and NaN are not values of the embedding.
    - Paths are absolute. *)

From stdpp Require Import gmap strings list sorting pretty.
From Stdlib Require Import Ascii ZArith QArith Qround Qpower Lqa Lia.

Open Scope Z_scope.

(** ** Exceptions and the state-and-exception monad *)

Inductive exn : Type :=
| ValueError
| IndexError
| KeyError
| AssertionError
| FileExistsError
| FileNotFoundError
| NotADirectoryError
| IsADirectoryError
| JSONDecodeError
| TypeError
| OSError.

Inductive result (A : Type) : Type :=
| Ok (a : A)
| Raise (e : exn).
Arguments Ok {A} a.
Arguments Raise {A} e.

Definition M (S A : Type) : Type := S -> result A * S.

Definition ret {S A} (a : A) : M S A := fun s => (Ok a, s).
Definition raise {S A} (e : exn) : M S A := fun s => (Raise e, s).
Definition bind {S A B} (m : M S A) (k : A -> M S B) : M S B :=
  fun s => match m s with
           | (Ok a, s') => k a s'
           | (Raise e, s') => (Raise e, s')
           end.
Definition lift {S A} (r : result A) : M S A := fun s => (r, s).

Declare Scope py_scope.
Delimit Scope py_scope with py.
Notation "x <- m ;; k" := (bind m (fun x => k))
  (at level 100, m at next level, right associativity) : py_scope.
Notation "m ;;; k" := (bind m (fun _ => k))
  (at level 100, right associativity) : py_scope.
Open Scope py_scope.

(** [for x in xs: body], threading an accumulator. *)
Fixpoint for_each {S A B} (xs : list A) (body : A -> B -> M S B) (acc : B) : M S B :=
  match xs with
  | [] => ret acc
  | x :: xs' => acc' <- body x acc ;; for_each xs' body acc'
  end.

(** ** numpy array operations used by the module *)

(** [a in X]: membership in an integer array. *)
Definition np_contains (a : Z) (X : list Z) : bool := existsb (Z.eqb a) X.

(** [X != a]: the elementwise comparison, a boolean array. *)
Definition np_ne (X : list Z) (a : Z) : list bool := map (fun x => negb (x =? a)) X.

(** [arr[mask]]: boolean-mask indexing. numpy raises IndexError when the
    mask and the array differ in length. *)
Fixpoint mask_index {A} (arr : list A) (mask : list bool) : result (list A) :=
  match arr, mask with
  | [], [] => Ok []
  | x :: arr', b :: mask' =>
      match mask_index arr' mask' with
      | Ok r => Ok (if b then x :: r else r)
      | Raise e => Raise e
      end
  | _, _ => Raise IndexError
  end.

(** ** remove_cross_contamination *)

Record arrays : Type := Arrays {
  X_a : list Z;
  X_b : list Z;
  y_a : list string;
  y_b : list string
}.

Section Repair.
(** The outcomes of the successive [np.random.rand() > 0.5]. *)
Variable coin : nat -> bool.

Definition flip : M nat bool := fun n => (Ok (coin n), S n).

(** The body of [for a in X_a]. *)
Definition repair_step (a : Z) (st : arrays) : M nat arrays :=
  if np_contains a (X_b st) then
    heads <- flip ;;
    if heads then
      let keep_locations := np_ne (X_a st) a in
      Xa <- lift (mask_index (X_a st) keep_locations) ;;
      ya <- lift (mask_index (y_a st) keep_locations) ;;
      ret (Arrays Xa (X_b st) ya (y_b st))
    else
      let keep_locations := np_ne (X_b st) a in
      Xb <- lift (mask_index (X_b st) keep_locations) ;;
      yb <- lift (mask_index (y_b st) keep_locations) ;;
      ret (Arrays (X_a st) Xb (y_a st) yb)
  else ret st.

(** The loop runs over the array [X_a] was bound to when the loop
    started: rebinding [X_a] in the body does not change what is
    iterated. *)
Definition remove_cross_contamination
    (Xa Xb : list Z) (ya yb : list string) : M nat arrays :=
  for_each Xa repair_step (Arrays Xa Xb ya yb).
End Repair.

(** ** Python floats *)

(** [2 ** k] *)
Definition pow2 (k : Z) : Q := (2 ^ k)%Q.

(** The integer nearest to [y], a tie going to the even one. *)
Definition round_half_even (y : Q) : Z :=
  let f := Qfloor y in
  match (y - inject_Z f ?= 1 # 2)%Q with
  | Lt => f
  | Gt => f + 1
  | Eq => if Z.even f then f else f + 1
  end.

(** [floor(log2(x))] of a positive [x]. *)
Definition floor_log2 (x : Q) : Z :=
  let k := Z.log2 (Qnum x) - Z.log2 (Zpos (Qden x)) in
  if Qle_bool (pow2 k) x then k else k - 1.

(** The double nearest to a positive [x]: a significand of 53 bits, and a
    unit in the last place that is not below [2 ** -1074]. The exponent is
    not bounded above: the operands of this module are fractions below 1,
    percentages and list lengths, far from [2 ** 1024]. *)
Definition fl_pos (x : Q) : Q :=
  let e := Z.max (floor_log2 x - 52) (-1074) in
  (inject_Z (round_half_even (x / pow2 e)) * pow2 e)%Q.

(** Rounding to the nearest double, ties to the even significand: what an
    IEEE 754 binary64 operation returns for the exact result [x]. *)
Definition fl (x : Q) : Q :=
  match (x ?= 0)%Q with
  | Eq => 0%Q
  | Gt => fl_pos x
  | Lt => (- fl_pos (- x))%Q
  end.

(** The float a decimal literal denotes, as in [0.29]; also [float(n)]. *)
Definition py_float (q : Q) : Q := fl q.

(** [int(x)] on a non-integral number: truncation towards zero. *)
Definition py_int (x : Q) : Z := Z.quot (Qnum x) (Zpos (Qden x)).

(** ** _stratify_samples *)

(** [idx_to_classes.items()] with each value set in its iteration order. *)
Definition idx_to_classes_t : Type := list (Z * list string).

(** [[(k, c) for k, v in idx_to_classes.items() for c in v]] *)
Definition expand (idx_to_classes : idx_to_classes_t) : list (Z * string) :=
  flat_map (fun kv => map (fun c => (fst kv, c)) (snd kv)) idx_to_classes.

(** [file_indices, labels = zip(...)] over the unpacked rows: with no row,
    unpacking the empty [zip()] into two names raises ValueError. *)
Definition unzip_rows (expanded_list : list (Z * string)) : result (list Z * list string) :=
  match expanded_list with
  | [] => Raise ValueError
  | _ => Ok (map fst expanded_list, map snd expanded_list)
  end.

(** The number of occurrences of a label. *)
Definition support (labels : list string) (l : string) : nat :=
  length (List.filter (String.eqb l) labels).

(** [np.unique(labels, return_counts=True)]: the sorted distinct labels,
    here with the count looked up by [support]. *)
Definition np_unique (labels : list string) : list string :=
  merge_sort String.le (remove_dups labels).

(** [unique_labels[count == 1]] *)
Definition singleton_labels (labels : list string) : list string :=
  List.filter (fun l => Nat.eqb (support labels l) 1) (np_unique labels).

(** [np.where(labels == l)[0][0]]: the first position holding [l];
    indexing the empty result raises IndexError. *)
Fixpoint np_where_first (labels : list string) (l : string) : result nat :=
  match labels with
  | [] => Raise IndexError
  | x :: rest =>
      if String.eqb x l then Ok 0%nat
      else match np_where_first rest l with
           | Ok i => Ok (S i)
           | Raise e => Raise e
           end
  end.

(** [arr[index]] *)
Definition np_get {A} (arr : list A) (index : nat) : result A :=
  match arr !! index with
  | Some x => Ok x
  | None => Raise IndexError
  end.

(** [np.delete(arr, index)] *)
Definition np_delete {A} (arr : list A) (index : nat) : result (list A) :=
  if decide (index < length arr)%nat then Ok (delete index arr) else Raise IndexError.

(** [list(set(X.astype(np.int)))]: the distinct values; like Python's, the
    order of the listing is the container's own. *)
Definition list_set (X : list Z) : list Z := elements (list_to_set X : gset Z).

(** [single_files, labels, file_indices] while the singleton labels are
    taken out. *)
Record singles_state : Type := Singles {
  single_files : list Z;
  labels : list string;
  file_indices : list Z
}.

Definition take_single {S} (l : string) (st : singles_state) : M S singles_state :=
  index <- lift (np_where_first (labels st) l) ;;
  f <- lift (np_get (file_indices st) index) ;;
  labels' <- lift (np_delete (labels st) index) ;;
  file_indices' <- lift (np_delete (file_indices st) index) ;;
  ret (Singles (single_files st ++ [f]) labels' file_indices').

Definition split_result : Type := (list Z * list Z * list string * list string)%type.

(** [test_size] of the first split: [int((val + test) * 100) / 100]. *)
Definition tmp_fraction (val_percentage test_percentage : Q) : Q :=
  fl (inject_Z (py_int (fl (fl (val_percentage + test_percentage) * 100))) / 100)%Q.

(** [test_size] of the second split: [(test * 100 / (val + test)) / 100]. *)
Definition test_fraction (val_percentage test_percentage : Q) : Q :=
  fl (fl (fl (test_percentage * 100) / fl (val_percentage + test_percentage)) / 100)%Q.

Section Stratify.
Variable coin : nat -> bool.
(** [train_test_split(X, y, test_size=, random_state=, stratify=)],
    returning [(X_train, X_test, y_train, y_test)] or raising. *)
Variable train_test_split :
  list Z -> list string -> Q -> Z -> list string -> result split_result.

Definition split_and_repair (X : list Z) (y : list string) (test_size : Q)
    (random_state : Z) : M nat arrays :=
  r <- lift (train_test_split X y test_size random_state y) ;;
  match r with
  | (X_train, X_test, y_train, y_test) =>
      remove_cross_contamination coin X_train X_test y_train y_test
  end.

Definition _stratify_samples (idx_to_classes : idx_to_classes_t) (split_seed : Z)
    (test_percentage val_percentage : Q)
    : M nat (list Z * list Z * option (list Z)) :=
  let expanded_list := expand idx_to_classes in
  rows <- lift (unzip_rows expanded_list) ;;
  let file_indices0 := fst rows in
  let labels0 := snd rows in
  st <- for_each (singleton_labels labels0) take_single (Singles [] labels0 file_indices0) ;;
  if (Nat.eqb (length (file_indices st)) 0 || Nat.eqb (length (labels st)) 0)%bool
  then ret ([], [], Some [])
  else
    s1 <- split_and_repair (file_indices st) (labels st)
            (tmp_fraction val_percentage test_percentage) split_seed ;;
    let X_train := X_a s1 ++ single_files st in
    let X_tmp := X_b s1 in
    let y_tmp := y_b s1 in
    if Qeq_bool test_percentage 0 then
      ret (list_set X_train, list_set X_tmp, None)
    else
      s2 <- split_and_repair X_tmp y_tmp
              (test_fraction val_percentage test_percentage) split_seed ;;
      ret (list_set X_train, list_set (X_a s2), Some (list_set (X_b s2))).
End Stratify.

(** ** The random partitioner and the split identity *)

(** A slice bound as Python clamps it: a negative bound counts from the
    end. *)
Definition py_bound (len : nat) (i : Z) : nat :=
  Z.to_nat (if i <? 0 then Z.max (i + Z.of_nat len) 0 else Z.min i (Z.of_nat len)).

(** [l[lo:hi]], a missing bound being [None]. *)
Definition py_slice {A} (l : list A) (lo hi : option Z) : list A :=
  let a := from_option (py_bound (length l)) 0%nat lo in
  let b := from_option (py_bound (length l)) (length l) hi in
  take (b - a) (drop a l).

(** [l[i]] on a Python list: a negative index counts from the end. *)
Definition py_index {A} (l : list A) (i : Z) : result A :=
  let j := if i <? 0 then i + Z.of_nat (length l) else i in
  if (0 <=? j) && (j <? Z.of_nat (length l)) then np_get l (Z.to_nat j)
  else Raise IndexError.

Record split_sizes : Type := Sizes {
  train_size : Z;
  val_size : Z;
  test_size : Z
}.

(** "Compute split sizes": [int(dataset_size * val_percentage)] converts
    the size to a float, multiplies in floats and truncates the rounded
    product. *)
Definition compute_sizes (dataset_size : nat) (val_percentage test_percentage : Q)
    : split_sizes :=
  let size := py_float (inject_Z (Z.of_nat dataset_size)) in
  let val_size := py_int (fl (size * val_percentage)) in
  let test_size := py_int (fl (size * test_percentage)) in
  Sizes (Z.of_nat dataset_size - val_size - test_size) val_size test_size.

(** "Slice a permuted array as big as the dataset": train, val, test. *)
Definition slice_indices (indices : list Z) (sz : split_sizes)
    : list Z * list Z * list Z :=
  (py_slice indices None (Some (train_size sz)),
   py_slice indices (Some (train_size sz)) (Some (train_size sz + val_size sz)),
   py_slice indices (Some (train_size sz + val_size sz)) None).

(** The derived name of the split directory. The seed suffix is the text
    between the quotes of the source, which is not an f-string. *)
Definition split_id (val_percentage test_percentage : Q) (split_seed : Z) : string :=
  let id := "split_v" +:+ pretty (py_int (fl (val_percentage * 100)))
            +:+ "_t" +:+ pretty (py_int (fl (test_percentage * 100))) in
  if decide (split_seed = 0) then id else id +:+ "_s{split_seed}".

(** The identity as the layout of the specification writes it:
    [split_v<val*100>_t<test*100>[_s<seed>]]. *)
Definition spec_split_id (val_percentage test_percentage : Q) (split_seed : Z) : string :=
  let id := "split_v" +:+ pretty (py_int (fl (val_percentage * 100)))
            +:+ "_t" +:+ pretty (py_int (fl (test_percentage * 100))) in
  if decide (split_seed = 0) then id else id +:+ "_s" +:+ pretty split_seed.

(** ** Strings *)

(** The characters [str.strip()] removes, among the 7-bit ones. *)
Definition is_space (c : ascii) : bool :=
  let n := nat_of_ascii c in
  ((9 <=? n)%nat && (n <=? 13)%nat) || ((28 <=? n)%nat && (n <=? 32)%nat).

Fixpoint lstrip (s : string) : string :=
  match s with
  | String c rest => if is_space c then lstrip rest else s
  | EmptyString => EmptyString
  end.

Definition rstrip (s : string) : string := String.rev (lstrip (String.rev s)).

(** [s.strip()] *)
Definition strip (s : string) : string := rstrip (lstrip s).

Fixpoint drop_string (n : nat) (s : string) : string :=
  match n, s with
  | O, _ => s
  | S n', String _ rest => drop_string n' rest
  | S _, EmptyString => EmptyString
  end.

(** [s.endswith(suffix)] *)
Definition ends_with (suffix s : string) : bool :=
  (String.length suffix <=? String.length s)%nat
  && String.eqb (drop_string (String.length s - String.length suffix) s) suffix.

(** ** The file system *)

(** A path is absolute: the list of its components from the root;
    [p / name] is [p ++ [name]]. Links are followed at the last component
    only. A dataset given by a relative path is outside the embedding: the
    operating system resolves it from the working directory, and a link
    target that is relative from the directory of the link. *)
Abbreviation path := (list string).

(** One shape of an annotation file: the keys of the object other than
    [name], and the value at [name] when it has one. *)
Record annotation : Type := Annotation {
  ann_keys : list string;
  ann_name : option string
}.

(** What a path holds. A text file is the list of the lines that iterating
    it yields; an annotation file is a JSON document with its
    ["annotations"] array. *)
Inductive node : Type :=
| Dir
| TextFile (lines : list string)
| JsonFile (annotations : list annotation)
| Symlink (target : path).

Abbreviation fs := (gmap path node).

Fixpoint realpath (fuel : nat) (s : fs) (p : path) : option path :=
  match s !! p with
  | Some (Symlink target) =>
      match fuel with
      | O => None
      | S fuel' => realpath fuel' s target
      end
  | _ => Some p
  end.

(** What [p] leads to, links followed; the root is a directory. *)
Definition stat (s : fs) (p : path) : option node :=
  match p with
  | [] => Some Dir
  | _ => match realpath 40 s p with
         | Some q => s !! q
         | None => None
         end
  end.

Definition is_dir (s : fs) (p : path) : bool :=
  match stat s p with
  | Some Dir => true
  | _ => false
  end.

(** [p.exists()] *)
Definition path_exists (p : path) : M fs bool :=
  fun s => (Ok (bool_decide (is_Some (stat s p))), s).

(** One level of [mkdir(parents=True, exist_ok=True)]. *)
Definition mkdir_level (p q : path) (_ : unit) : M fs unit :=
  fun s =>
    match s !! q with
    | None => (Ok tt, <[q := Dir]> s)
    | Some _ =>
        if is_dir s q then (Ok tt, s)
        else (Raise (if decide (q = p) then FileExistsError else NotADirectoryError), s)
    end.

(** [p.mkdir(parents=True, exist_ok=True)] and
    [os.makedirs(p, exist_ok=True)]: every missing level of [p] becomes a
    directory. *)
Definition mkdir_parents (p : path) : M fs unit :=
  for_each (map (fun n => take n p) (seq 1 (length p))) (mkdir_level p) tt.

Definition parent (p : path) : path := removelast p.

Definition name (p : path) : string := List.last p "".

(** [p.stem] of a name matched by [*.json]; the name [.json] itself has
    no suffix. *)
Definition stem (p : path) : string :=
  let n := name p in
  if ends_with ".json" n && (5 <? String.length n)%nat
  then String.substring 0 (String.length n - 5) n
  else n.

(** [list(dir.glob("*.json"))], in the order the store lists its entries. *)
Definition glob_json (dir : path) : M fs (list path) :=
  fun s =>
    (Ok (if is_dir s dir
         then List.filter
                (fun p => bool_decide (p ≠ [] ∧ parent p = from_option id dir (realpath 40 s dir))
                          && ends_with ".json" (name p))
                (map fst (map_to_list s))
         else []), s).

(** [json.load(open(p))["annotations"]] *)
Definition load_annotations (p : path) : M fs (list annotation) :=
  fun s =>
    match stat s p with
    | Some (JsonFile annotations) => (Ok annotations, s)
    | Some (TextFile _) => (Raise JSONDecodeError, s)
    | Some Dir => (Raise IsADirectoryError, s)
    | Some (Symlink _) => (Raise OSError, s)
    | None => (Raise FileNotFoundError, s)
    end.

(** [open(p)] for reading, iterated line by line. *)
Definition read_lines (p : path) : M fs (list string) :=
  fun s =>
    match stat s p with
    | Some (TextFile lines) => (Ok lines, s)
    | Some (JsonFile _) => (Raise OSError, s)
    | Some Dir => (Raise IsADirectoryError, s)
    | Some (Symlink _) => (Raise OSError, s)
    | None => (Raise FileNotFoundError, s)
    end.

(** [open(p, "w")]: the file is created or emptied; the handle is the path
    written to. *)
Definition open_w (p : path) : M fs path :=
  fun s =>
    match realpath 40 s p with
    | None => (Raise OSError, s)
    | Some q =>
        if negb (is_dir s (parent q)) then (Raise FileNotFoundError, s)
        else match s !! q with
             | Some Dir => (Raise IsADirectoryError, s)
             | _ => (Ok q, <[q := TextFile []]> s)
             end
    end.

(** [f.write(line)] *)
Definition write (f : path) (line : string) : M fs unit :=
  fun s =>
    match s !! f with
    | Some (TextFile lines) => (Ok tt, <[f := TextFile (lines ++ [line])]> s)
    | _ => (Raise OSError, s)
    end.

(** [p.unlink()] *)
Definition unlink (p : path) : M fs unit :=
  fun s =>
    match s !! p with
    | None => (Raise FileNotFoundError, s)
    | Some Dir => (Raise IsADirectoryError, s)
    | Some _ => (Ok tt, delete p s)
    end.

(** [p.symlink_to(target)], the target being absolute. *)
Definition symlink_to (p target : path) : M fs unit :=
  fun s =>
    match s !! p with
    | Some _ => (Raise FileExistsError, s)
    | None =>
        if is_dir s (parent p) then (Ok tt, <[p := Symlink target]> s)
        else (Raise FileNotFoundError, s)
    end.

(** ** extract_classes *)

(** [d[k].add(v)] on a [defaultdict(set)], kept as an association list in
    insertion order. *)
Fixpoint dict_add `{EqDecision K, EqDecision V} (k : K) (v : V) (d : list (K * list V))
    : list (K * list V) :=
  match d with
  | [] => [(k, [v])]
  | (k', vs) :: d' =>
      if decide (k' = k)
      then (k', if decide (v ∈ vs) then vs else vs ++ [v]) :: d'
      else (k', vs) :: dict_add k v d'
  end.

Definition class_maps : Type := (list (string * list Z) * idx_to_classes_t)%type.

(** The body of [for annotation in annotations]. *)
Definition add_annotation {S} (annotation_type : string) (i : Z) (a : annotation)
    (acc : class_maps) : M S class_maps :=
  if bool_decide (annotation_type ∈ ann_keys a) then
    match ann_name a with
    | None => raise KeyError
    | Some class_name =>
        ret (dict_add class_name i (fst acc), dict_add i class_name (snd acc))
    end
  else ret acc.

(** The body of [for i, file_name in enumerate(annotation_files)]. *)
Definition add_file (annotation_type : string) (entry : Z * path) (acc : class_maps)
    : M fs class_maps :=
  annotations <- load_annotations (snd entry) ;;
  for_each annotations (add_annotation annotation_type (fst entry)) acc.

Definition enumerate {A} (l : list A) : list (Z * A) :=
  zip (map Z.of_nat (seq 0 (length l))) l.

Definition extract_classes (annotations_path : path) (annotation_type : string)
    : M fs class_maps :=
  annotation_files <- glob_json annotations_path ;;
  for_each (enumerate annotation_files) (add_file annotation_type) ([], []).

(** ** get_classes *)

Definition get_classes (dataset : option path) (annotation_type : string)
    (remove_background : bool) : M fs (list string) :=
  match dataset with
  | None => raise AssertionError
  | Some dataset_path =>
      let classes_file := "classes_" +:+ annotation_type +:+ ".txt" in
      lines <- read_lines (dataset_path ++ ["lists"; classes_file]) ;;
      let classes := map strip lines in
      if remove_background then
        first <- lift (py_index classes 0) ;;
        if String.eqb first "__background__"
        then ret (py_slice classes (Some 1) None)
        else ret classes
      else ret classes
  end.

(** ** _write_to_file *)

Definition newline : string := String (ascii_of_nat 10) EmptyString.

Definition write_stem (annotation_files : list path) (f : path) (i : Z) (_ : unit)
    : M fs unit :=
  file <- lift (py_index annotation_files i) ;;
  write f (stem file +:+ newline).

Definition _write_to_file (annotation_files : list path) (file_path : path)
    (split_idx : option (list Z)) : M fs unit :=
  f <- open_w file_path ;;
  match split_idx with
  | None => raise TypeError
  | Some idx => for_each idx (write_stem annotation_files f) tt
  end.

(** ** split_dataset *)

Definition Qltb (x y : Q) : bool := negb (Qle_bool y x).

(** The four checks under "Create split id, path and final split paths".
    The third compares the float sum, which is rounded, with [1.0]. *)
Definition validate (val_percentage test_percentage : option Q) (split_seed : option Z)
    : result (Q * Q * Z) :=
  match val_percentage with
  | None => Raise ValueError
  | Some vp =>
      if negb (Qltb 0 vp && Qltb vp 1) then Raise ValueError
      else match test_percentage with
           | None => Raise ValueError
           | Some tp =>
               if negb (Qle_bool 0 tp && Qltb tp 1) then Raise ValueError
               else if negb (Qltb (fl (vp + tp)) 1) then Raise ValueError
               else match split_seed with
                    | None => Raise ValueError
                    | Some seed => Ok (vp, tp, seed)
                    end
           end
  end.

(** The returned dictionary: strategy, then partition, then the path of
    the list file. *)
Definition splits_t : Type := list (string * list (string * path)).

Definition make_splits (split_path : path) (test_percentage : Q) : splits_t :=
  let entry strategy :=
    (strategy,
     [("train", split_path ++ [strategy +:+ "_train.txt"]);
      ("val", split_path ++ [strategy +:+ "_val.txt"])]
     ++ (if Qltb 0 test_percentage
         then [("test", split_path ++ [strategy +:+ "_test.txt"])]
         else [])) in
  [entry "random"; entry "stratified_tag"; entry "stratified_polygon"].

(** Runs code that draws coins, from draw [n] on; the store is not
    touched. *)
Definition with_coins {A} (m : M nat A) (n : nat) : M fs (A * nat) :=
  fun s =>
    match m n with
    | (Ok a, n') => (Ok (a, n'), s)
    | (Raise e, _) => (Raise e, s)
    end.

(** [np.random.seed(seed)]: the seed is to be between 0 and [2**32 - 1],
    any other integer raises ValueError. *)
Definition np_random_seed (seed : Z) : result unit :=
  if (0 <=? seed) && (seed <? 2 ^ 32) then Ok tt else Raise ValueError.

Section Orchestrator.
(** What [np.random.permutation(n)] returns after [np.random.seed(seed)]. *)
Variable np_permutation : Z -> nat -> list Z.
(** The outcomes of [np.random.rand() > 0.5] that follow them. *)
Variable np_coins : Z -> nat -> nat -> bool.
Variable train_test_split :
  list Z -> list string -> Q -> Z -> list string -> result split_result.

(** "STRATIFIED SPLIT ON TAGS" and "ON POLYGONS": one strategy. *)
Definition stratified_split (annotation_path split_path : path)
    (annotation_files : list path) (kind : string) (split_seed : Z)
    (test_percentage val_percentage : Q) (n : nat) : M fs nat :=
  maps <- extract_classes annotation_path kind ;;
  let idx_to_classes := snd maps in
  if (0 <? length idx_to_classes)%nat then
    r <- with_coins
           (_stratify_samples (np_coins split_seed (length annotation_files))
              train_test_split idx_to_classes split_seed test_percentage val_percentage)
           n ;;
    let train_indices := fst (fst (fst r)) in
    let val_indices := snd (fst (fst r)) in
    let test_indices := snd (fst r) in
    let file part := split_path ++ ["stratified_" +:+ kind +:+ "_" +:+ part +:+ ".txt"] in
    _write_to_file annotation_files (file "train") (Some train_indices) ;;;
    _write_to_file annotation_files (file "val") (Some val_indices) ;;;
    (if Qltb 0 test_percentage
     then _write_to_file annotation_files (file "test") test_indices
     else ret tt) ;;;
    ret (snd r)
  else ret n.

(** "RANDOM SPLIT": the sizes, the seeded permutation and its three
    slices [(train_indices, val_indices, test_indices)]. *)
Definition random_split (dataset_size : nat) (split_seed : Z)
    (val_percentage test_percentage : Q) : result (list Z * list Z * list Z) :=
  let sz := compute_sizes dataset_size val_percentage test_percentage in
  match np_random_seed split_seed with
  | Raise e => Raise e
  | Ok _ =>
      let indices := np_permutation split_seed dataset_size in
      Ok (slice_indices indices sz)
  end.

(** "Do the actual split": the branch taken when the split directory
    does not exist. *)
Definition do_split (annotation_path split_path : path) (annotation_files : list path)
    (split_seed : Z) (test_percentage val_percentage : Q) : M fs unit :=
  mkdir_parents split_path ;;;
  let dataset_size := length annotation_files in
  sl <- lift (random_split dataset_size split_seed val_percentage test_percentage) ;;
  _write_to_file annotation_files (split_path ++ ["random_train.txt"]) (Some (fst (fst sl))) ;;;
  _write_to_file annotation_files (split_path ++ ["random_val.txt"]) (Some (snd (fst sl))) ;;;
  (if Qltb 0 test_percentage
   then _write_to_file annotation_files (split_path ++ ["random_test.txt"]) (Some (snd sl))
   else ret tt) ;;;
  n <- stratified_split annotation_path split_path annotation_files "tag"
         split_seed test_percentage val_percentage 0%nat ;;
  _ <- stratified_split annotation_path split_path annotation_files "polygon"
         split_seed test_percentage val_percentage n ;;
  ret tt.

(** "Create symlink for default split" *)
Definition default_split (lists_path : path) (id : string) (make_default_split : bool)
    : M fs unit :=
  let split := lists_path ++ ["split"] in
  e <- path_exists split ;;
  if make_default_split || negb e then
    e' <- path_exists split ;;
    (if e' then unlink split else ret tt) ;;;
    symlink_to split (lists_path ++ [id])
  else ret tt.

Definition split_dataset (dataset : option path)
    (val_percentage test_percentage : option Q) (force_resplit : bool)
    (split_seed : option Z) (make_default_split : bool) : M fs splits_t :=
  match dataset with
  | None => raise AssertionError
  | Some dataset_path =>
      let annotation_path := dataset_path ++ ["annotations"] in
      e <- path_exists annotation_path ;;
      if negb e then raise AssertionError else
      annotation_files <- glob_json annotation_path ;;
      let lists_path := dataset_path ++ ["lists"] in
      mkdir_parents lists_path ;;;
      cfg <- lift (validate val_percentage test_percentage split_seed) ;;
      let vp := fst (fst cfg) in
      let tp := snd (fst cfg) in
      let seed := snd cfg in
      let id := split_id vp tp seed in
      let split_path := lists_path ++ [id] in
      let splits := make_splits split_path tp in
      e <- path_exists split_path ;;
      (if negb e
       then do_split annotation_path split_path annotation_files seed tp vp
       else ret tt) ;;;
      default_split lists_path id make_default_split ;;;
      ret splits
  end.
End Orchestrator.

(** ** make_class_lists *)

(** [p.mkdir(exist_ok=True)]: one level, the parent has to be there. *)
Definition mkdir_exist_ok (p : path) : M fs unit :=
  fun s =>
    match s !! p with
    | Some _ => if is_dir s p then (Ok tt, s) else (Raise FileExistsError, s)
    | None =>
        match stat s (parent p) with
        | Some Dir => (Ok tt, <[p := Dir]> s)
        | Some _ => (Raise NotADirectoryError, s)
        | None => (Raise FileNotFoundError, s)
        end
    end.

Definition lf : ascii := ascii_of_nat 10.
Definition cr : ascii := ascii_of_nat 13.

(** The lines that iterating a text file yields for the text it holds: a
    line ends after a newline; a carriage return, alone or before a
    newline, reads as a newline. *)
Fixpoint text_lines (text : string) : list string :=
  match text with
  | EmptyString => []
  | String c rest =>
      if Ascii.eqb c lf then newline :: text_lines rest
      else if Ascii.eqb c cr then
        match rest with
        | String c' _ => if Ascii.eqb c' lf then text_lines rest
                         else newline :: text_lines rest
        | EmptyString => [newline]
        end
      else match text_lines rest with
           | [] => [String c EmptyString]
           | l :: ls => String c l :: ls
           end
  end.

(** [f.write(text)] for any text: it continues the last line when that
    line is not ended. *)
Definition write_text (f : path) (text : string) : M fs unit :=
  fun s =>
    match s !! f with
    | Some (TextFile lines) =>
        (Ok tt, <[f := TextFile (text_lines (String.concat "" lines +:+ text))]> s)
    | _ => (Raise OSError, s)
    end.

(** The body of [for annotation_type in ["tag", "polygon"]]. *)
Definition write_class_list (annotations_path lists_path : path)
    (annotation_type : string) (_ : unit) : M fs unit :=
  let fname := lists_path ++ ["classes_" +:+ annotation_type +:+ ".txt"] in
  maps <- extract_classes annotations_path annotation_type ;;
  let classes_names := map fst (fst maps) in
  if (0 <? length classes_names)%nat then
    let sorted := merge_sort String.le classes_names in
    f <- open_w fname ;;
    write_text f (String.concat newline sorted)
  else ret tt.

Definition make_class_lists (dataset : option path) : M fs unit :=
  match dataset with
  | None => raise AssertionError
  | Some dataset_path =>
      let annotations_path := dataset_path ++ ["annotations"] in
      e <- path_exists annotations_path ;;
      if negb e then raise AssertionError else
      let lists_path := dataset_path ++ ["lists"] in
      mkdir_exist_ok lists_path ;;;
      for_each ["tag"; "polygon"] (write_class_list annotations_path lists_path) tt
  end.

(** No character of the string ends a line. *)
Fixpoint line_free (s : string) : bool :=
  match s with
  | EmptyString => true
  | String c rest => negb (Ascii.eqb c lf) && negb (Ascii.eqb c cr) && line_free rest
  end.

(** A class name that a list file gives back as it is: not empty, on one
    line, without white space at either end. *)
Definition clean_name (name : string) : Prop :=
  name <> "" /\ line_free name = true /\ strip name = name.

(** ** Definitions used to state the properties *)

(** The entries of [y] at the positions where [f] holds of [X]. *)
Fixpoint select {A} (f : Z -> bool) (X : list Z) (y : list A) : list A :=
  match X, y with
  | x :: X', l :: y' => if f x then l :: select f X' y' else select f X' y'
  | _, _ => []
  end.

(** The arrays of a state, as filters of the arrays [Xa Xb ya yb]. *)
Definition filtered (fa fb : Z -> bool) (Xa Xb : list Z) (ya yb : list string) : arrays :=
  Arrays (List.filter fa Xa) (List.filter fb Xb) (select fa Xa ya) (select fb Xb yb).

(** A splitter for the examples. It has the sizes of the library
    ([n_test = ceil(test_size * n)], the rest for train, an empty part being
    an error) and takes the last rows as the test part: one of the orders
    the library's shuffle can produce. *)
Definition tail_split (X : list Z) (y : list string) (test_size : Q) (random_state : Z)
    (stratify : list string) : result split_result :=
  if negb (Qltb 0 test_size && Qltb test_size 1) then Raise ValueError
  else
    let n_test := Z.to_nat (Qceiling (test_size * inject_Z (Z.of_nat (length X)))) in
    let n_train := (length X - n_test)%nat in
    if Nat.eqb n_train 0 then Raise ValueError
    else Ok (take n_train X, drop n_train X, take n_train y, drop n_train y).

(** [_stratify_samples] after its loop, when rows are left: the two
    splits, and the files of the singleton labels appended to train. *)
Definition stratify_rest (coin : nat -> bool)
    (train_test_split : list Z -> list string -> Q -> Z -> list string -> result split_result)
    (ks : list Z) (rows' : list (Z * string)) (split_seed : Z)
    (test_percentage val_percentage : Q) : M nat (list Z * list Z * option (list Z)) :=
  s1 <- split_and_repair coin train_test_split (map fst rows') (map snd rows')
          (tmp_fraction val_percentage test_percentage) split_seed ;;
  if Qeq_bool test_percentage 0 then
    ret (list_set (X_a s1 ++ ks), list_set (X_b s1), None)
  else
    s2 <- split_and_repair coin train_test_split (X_b s1) (y_b s1)
            (test_fraction val_percentage test_percentage) split_seed ;;
    ret (list_set (X_a s1 ++ ks), list_set (X_a s2), Some (list_set (X_b s2))).

(** [range(n)] *)
Definition py_range (n : nat) : list Z := map Z.of_nat (seq 0 n).

(** The rows of the examples: two images, each with a label of its own
    and one they share. *)
Definition two_rare : idx_to_classes_t :=
  [(0, ["rare0"; "common"]); (1, ["rare1"; "common"])].

(** A configuration that the checks of [split_dataset] are to reject: a
    fraction or the seed absent, the validation fraction outside (0,1), the
    test fraction outside [0,1), or a sum of 1 or more. *)
Definition invalid_config (val_percentage test_percentage : option Q)
    (split_seed : option Z) : Prop :=
  match val_percentage, test_percentage, split_seed with
  | Some vp, Some tp, Some _ =>
      ~ (0 < vp /\ vp < 1)%Q \/ ~ (0 <= tp /\ tp < 1)%Q \/ ~ (vp + tp < 1)%Q
  | _, _, _ => True
  end.

(** [s'] is [s] with directories added at paths that satisfy [P]. *)
Definition grown (P : path -> Prop) (s s' : fs) : Prop :=
  forall q, s' !! q = s !! q \/ (s !! q = None /\ s' !! q = Some Dir /\ P q).

(** The stores of the examples: a dataset [ds] with two annotation files,
    without and with a split made earlier. *)
Definition tagged (c : string) : annotation := Annotation ["tag"] (Some c).

Definition fresh_store : fs :=
  <[ ["ds"; "annotations"; "b.json"] := JsonFile [tagged "dog"; tagged "cat"] ]>
  (<[ ["ds"; "annotations"; "a.json"] := JsonFile [tagged "cat"] ]>
  (<[ ["ds"; "annotations"] := Dir ]> {[ ["ds"] := Dir ]})).

Definition stale_store : fs :=
  <[ ["ds"; "lists"; "split_v10_t20"; "random_train.txt"] := TextFile ["old" +:+ newline] ]>
  (<[ ["ds"; "lists"; "split_v10_t20"] := Dir ]>
  (<[ ["ds"; "lists"] := Dir ]> fresh_store)).

(** A store with the lists directory in place. *)
Definition lists_store : fs := <[ ["ds"; "lists"] := Dir ]> fresh_store.

Definition classes_store : fs :=
  {[ ["ds"; "lists"; "classes_tag.txt"]
     := TextFile ["__background__" +:+ newline; "cat" +:+ newline; " dog " +:+ newline] ]}.

(** [v in d[k]] for a dictionary of sets. *)
Definition in_dict {K V} (k : K) (v : V) (d : list (K * list V)) : Prop :=
  exists vs, (k, vs) ∈ d /\ v ∈ vs.

(** The shape of a dictionary of sets: the keys are distinct, and each set
    is non-empty and lists its members once. *)
Definition dict_ok {K V} (d : list (K * list V)) : Prop :=
  NoDup (map fst d) /\ forall k vs, (k, vs) ∈ d -> vs <> [] /\ NoDup vs.

(** What [extract_classes] keeps true of its two dictionaries, for image
    indices below [n]: each is the inverse of the other, both are
    dictionaries of non-empty sets, and every image index is in range. *)
Definition class_maps_ok (n : nat) (acc : class_maps) : Prop :=
  (forall c i, in_dict c i (fst acc) <-> in_dict i c (snd acc))
  /\ dict_ok (fst acc) /\ dict_ok (snd acc)
  /\ forall i, i ∈ map fst (snd acc) -> 0 <= i < Z.of_nat n.

(** * Properties *)

(** ** The repair *)

Lemma mask_index_filter (f : Z -> bool) (X : list Z) :
  mask_index X (map f X) = Ok (List.filter f X).
Proof.
  induction X as [|x X IH]; simpl; [reflexivity|].
  rewrite IH. destruct (f x); reflexivity.
Qed.

Lemma mask_index_select {A} (f : Z -> bool) (X : list Z) (y : list A) :
  length X = length y -> mask_index y (map f X) = Ok (select f X y).
Proof.
  revert y. induction X as [|x X IH]; intros [|l y] Hlen; simpl in *; try lia.
  - reflexivity.
  - rewrite IH by lia. destruct (f x); reflexivity.
Qed.

Lemma select_length {A} (f : Z -> bool) (X : list Z) (y : list A) :
  length X = length y -> length (List.filter f X) = length (select f X y).
Proof.
  revert y. induction X as [|x X IH]; intros [|l y] Hlen; simpl in *; try lia.
  destruct (f x); simpl; rewrite (IH y) by lia; reflexivity.
Qed.

Lemma select_true {A} (X : list Z) (y : list A) :
  length X = length y -> select (fun _ => true) X y = y.
Proof.
  revert y. induction X as [|x X IH]; intros [|l y] Hlen; simpl in *; try lia.
  - reflexivity.
  - rewrite IH by lia. reflexivity.
Qed.

Lemma filter_true (X : list Z) : List.filter (fun _ => true) X = X.
Proof. induction X as [|x X IH]; simpl; [|rewrite IH]; reflexivity. Qed.

Lemma filter_filter (f g : Z -> bool) (X : list Z) :
  List.filter g (List.filter f X) = List.filter (fun x => f x && g x) X.
Proof.
  induction X as [|x X IH]; simpl; [reflexivity|].
  destruct (f x); simpl; [destruct (g x)|]; rewrite IH; reflexivity.
Qed.

Lemma select_nil {A} (f : Z -> bool) (X : list Z) : select f X (@nil A) = [].
Proof. destruct X; reflexivity. Qed.

Lemma select_select {A} (f g : Z -> bool) (X : list Z) (y : list A) :
  select g (List.filter f X) (select f X y) = select (fun x => f x && g x) X y.
Proof.
  revert y. induction X as [|x X IH]; intros y; simpl; [reflexivity|].
  destruct y as [|l y]; [apply select_nil|].
  destruct (f x); simpl; [destruct (g x)|]; rewrite IH; reflexivity.
Qed.

Lemma filter_sublist (f : Z -> bool) (X : list Z) : sublist (List.filter f X) X.
Proof.
  induction X as [|x X IH]; simpl; [constructor|].
  destruct (f x); [by apply sublist_skip | by apply sublist_cons].
Qed.

Lemma elem_of_filter_bool (f : Z -> bool) (X : list Z) (v : Z) :
  v ∈ List.filter f X <-> v ∈ X /\ f v = true.
Proof. rewrite !list_elem_of_In. apply filter_In. Qed.

Lemma np_contains_spec (a : Z) (X : list Z) : np_contains a X = true <-> a ∈ X.
Proof.
  unfold np_contains. rewrite existsb_exists. split.
  - intros (x & Hin & Heq). apply Z.eqb_eq in Heq. subst. by apply list_elem_of_In.
  - intros Hin. exists a. split; [by apply list_elem_of_In | apply Z.eqb_refl].
Qed.

Lemma repair_step_cases coin a Xa Xb ya yb n :
  length Xa = length ya -> length Xb = length yb ->
  let ne := fun x => negb (x =? a) in
  repair_step coin a (Arrays Xa Xb ya yb) n =
    if np_contains a Xb then
      if coin n
      then (Ok (filtered ne (fun _ => true) Xa Xb ya yb), S n)
      else (Ok (filtered (fun _ => true) ne Xa Xb ya yb), S n)
    else (Ok (Arrays Xa Xb ya yb), n).
Proof.
  intros Ha Hb ne. unfold repair_step, filtered, bind, flip, lift, ret, np_ne. simpl.
  destruct (np_contains a Xb); [|reflexivity].
  destruct (coin n).
  - fold ne. rewrite (mask_index_filter ne Xa), (mask_index_select ne Xa ya Ha).
    by rewrite filter_true, select_true.
  - fold ne. rewrite (mask_index_filter ne Xb), (mask_index_select ne Xb yb Hb).
    by rewrite filter_true, select_true.
Qed.

Lemma filtered_filtered fa fb ga gb Xa Xb ya yb :
  filtered ga gb (List.filter fa Xa) (List.filter fb Xb) (select fa Xa ya) (select fb Xb yb)
  = filtered (fun x => fa x && ga x) (fun x => fb x && gb x) Xa Xb ya yb.
Proof. unfold filtered. by rewrite !filter_filter, !select_select. Qed.

(** The loop over any list of values [todo]: the state is filtered, and no
    value of [todo] is left on both sides. *)
Lemma repair_loop coin todo : forall Xa Xb ya yb n,
  length Xa = length ya -> length Xb = length yb ->
  exists fa fb n',
    for_each todo (repair_step coin) (Arrays Xa Xb ya yb) n
      = (Ok (filtered fa fb Xa Xb ya yb), n')
    /\ forall v, v ∈ todo -> v ∈ List.filter fa Xa -> v ∈ List.filter fb Xb -> False.
Proof.
  induction todo as [|a todo IH]; intros Xa Xb ya yb n Ha Hb.
  - exists (fun _ => true), (fun _ => true), n. split.
    + unfold filtered. by rewrite !filter_true, !select_true.
    + intros v Hv. by apply elem_of_nil in Hv.
  - simpl. unfold bind. rewrite repair_step_cases by done.
    set (ne := fun x => negb (x =? a)).
    assert (Hne : forall X, a ∈ List.filter ne X -> False).
    { intros X H. apply elem_of_filter_bool in H as [_ H].
      unfold ne in H. by rewrite Z.eqb_refl in H. }
    destruct (np_contains a Xb) eqn:Hin; [destruct (coin n)|].
    + destruct (IH (List.filter ne Xa) (List.filter (fun _ => true) Xb)
                  (select ne Xa ya) (select (fun _ => true) Xb yb) (S n))
        as (fa & fb & n' & Hrun & Hdisj).
      { by apply select_length. } { by apply select_length. }
      unfold filtered at 1. rewrite Hrun, filtered_filtered.
      eexists _, _, n'. split; [reflexivity|].
      intros v Hv Hva Hvb. rewrite <- filter_filter in Hva, Hvb.
      apply elem_of_cons in Hv as [->|Hv]; [|by eapply Hdisj].
      apply elem_of_filter_bool in Hva as [Hva _]. by eapply Hne.
    + destruct (IH (List.filter (fun _ => true) Xa) (List.filter ne Xb)
                  (select (fun _ => true) Xa ya) (select ne Xb yb) (S n))
        as (fa & fb & n' & Hrun & Hdisj).
      { by apply select_length. } { by apply select_length. }
      unfold filtered at 1. rewrite Hrun, filtered_filtered.
      eexists _, _, n'. split; [reflexivity|].
      intros v Hv Hva Hvb. rewrite <- filter_filter in Hva, Hvb.
      apply elem_of_cons in Hv as [->|Hv]; [|by eapply Hdisj].
      apply elem_of_filter_bool in Hvb as [Hvb _]. by eapply Hne.
    + destruct (IH Xa Xb ya yb n Ha Hb) as (fa & fb & n' & Hrun & Hdisj).
      rewrite Hrun. exists fa, fb, n'. split; [reflexivity|].
      intros v Hv Hva Hvb.
      apply elem_of_cons in Hv as [->|Hv]; [|by eapply Hdisj].
      apply elem_of_filter_bool in Hvb as [Hvb _].
      apply np_contains_spec in Hvb. congruence.
Qed.

(** C5. On inputs whose index and label arrays have equal lengths,
    [remove_cross_contamination] returns; its two index arrays share no
    value, each is a subsequence of its input, and each label array is its
    input indexed by the same mask as the index array it is paired with, so
    that the pairs stay aligned. *)
Theorem repair_disjoint_aligned coin Xa Xb ya yb n :
  length Xa = length ya -> length Xb = length yb ->
  exists r n' mask_a mask_b,
    remove_cross_contamination coin Xa Xb ya yb n = (Ok r, n')
    /\ (forall v, v ∈ X_a r -> v ∈ X_b r -> False)
    /\ sublist (X_a r) Xa /\ sublist (X_b r) Xb
    /\ mask_index Xa mask_a = Ok (X_a r) /\ mask_index ya mask_a = Ok (y_a r)
    /\ mask_index Xb mask_b = Ok (X_b r) /\ mask_index yb mask_b = Ok (y_b r)
    /\ length (X_a r) = length (y_a r) /\ length (X_b r) = length (y_b r).
Proof.
  intros Ha Hb.
  destruct (repair_loop coin Xa Xa Xb ya yb n Ha Hb) as (fa & fb & n' & Hrun & Hdisj).
  exists (filtered fa fb Xa Xb ya yb), n', (map fa Xa), (map fb Xb).
  unfold remove_cross_contamination. rewrite Hrun. simpl.
  repeat split.
  - intros v Hva Hvb. apply (Hdisj v); [|done..].
    by apply elem_of_filter_bool in Hva as [Hva _].
  - apply filter_sublist.
  - apply filter_sublist.
  - apply mask_index_filter.
  - by apply mask_index_select.
  - apply mask_index_filter.
  - by apply mask_index_select.
  - by apply select_length.
  - by apply select_length.
Qed.

Lemma repair_disjoint_aligned_witness :
  exists r n' mask_a mask_b,
    remove_cross_contamination (fun k => Nat.even k) [3; 1; 3; 2] [2; 3; 4]
      ["cat"; "dog"; "owl"; "cat"] ["dog"; "fox"; "owl"] 0%nat = (Ok r, n')
    /\ (forall v, v ∈ X_a r -> v ∈ X_b r -> False)
    /\ sublist (X_a r) [3; 1; 3; 2] /\ sublist (X_b r) [2; 3; 4]
    /\ mask_index [3; 1; 3; 2] mask_a = Ok (X_a r)
    /\ mask_index ["cat"; "dog"; "owl"; "cat"] mask_a = Ok (y_a r)
    /\ mask_index [2; 3; 4] mask_b = Ok (X_b r)
    /\ mask_index ["dog"; "fox"; "owl"] mask_b = Ok (y_b r)
    /\ length (X_a r) = length (y_a r) /\ length (X_b r) = length (y_b r).
Proof. apply repair_disjoint_aligned; reflexivity. Defined.

(** [remove_cross_contamination] on the arrays of the specification's
    example: one draw, and the value 3 stays on exactly one side. *)
Lemma repair_123_345 coin ya yb n :
  length ya = 3%nat -> length yb = 3%nat ->
  exists r, remove_cross_contamination coin [1; 2; 3] [3; 4; 5] ya yb n = (Ok r, S n)
    /\ (X_a r = [1; 2] /\ X_b r = [3; 4; 5] \/ X_a r = [1; 2; 3] /\ X_b r = [4; 5]).
Proof.
  intros Ha Hb.
  destruct ya as [|a1 [|a2 [|a3 [|]]]]; try discriminate.
  destruct yb as [|b1 [|b2 [|b3 [|]]]]; try discriminate.
  unfold remove_cross_contamination, for_each, repair_step, bind, flip, lift, ret. simpl.
  destruct (coin n); simpl; eexists; split; eauto.
Qed.

(** C2. With a value that occurs twice in [X_a] and once in [X_b], heads
    then tails: two coins are drawn for the one common value and it is
    removed from both sides. *)
Theorem repair_removes_from_both :
  remove_cross_contamination (fun k => Nat.eqb k 0) [7; 7] [7] ["cat"; "dog"] ["owl"] 0%nat
  = (Ok (Arrays [] [] [] []), 2%nat).
Proof. reflexivity. Qed.

Lemma np_contains_filter_ne (a v : Z) (X : list Z) :
  v <> a -> np_contains v (List.filter (fun x => negb (x =? a)) X) = np_contains v X.
Proof.
  intros Hne. apply eq_true_iff_eq. rewrite !np_contains_spec, elem_of_filter_bool.
  split; [by intros [H _]|]. intros H. split; [done|].
  apply negb_true_iff, Z.eqb_neq. done.
Qed.

(** The loop over a list [todo] without repetition: one draw for each
    value of [todo] that is in [X_b], that value is then filtered out on
    exactly one side, and every other value is kept on both. *)
Lemma repair_loop_nodup coin todo : forall Xa Xb ya yb n,
  NoDup todo -> length Xa = length ya -> length Xb = length yb ->
  exists fa fb,
    for_each todo (repair_step coin) (Arrays Xa Xb ya yb) n
      = (Ok (filtered fa fb Xa Xb ya yb),
         (n + length (List.filter (fun a => np_contains a Xb) todo))%nat)
    /\ (forall v, v ∈ todo -> v ∈ Xb -> fa v = negb (fb v))
    /\ (forall v, ~ (v ∈ todo /\ v ∈ Xb) -> fa v = true /\ fb v = true).
Proof.
  induction todo as [|a todo IH]; intros Xa Xb ya yb n Hnd Ha Hb.
  - exists (fun _ => true), (fun _ => true). split; [|split].
    + unfold filtered. simpl. by rewrite !filter_true, !select_true, Nat.add_0_r.
    + intros v Hv. by apply elem_of_nil in Hv.
    + done.
  - apply NoDup_cons in Hnd as [Hnotin Hnd].
    simpl for_each. unfold bind. rewrite repair_step_cases by done.
    set (ne := fun x => negb (x =? a)).
    assert (Hnea : ne a = false) by (unfold ne; by rewrite Z.eqb_refl).
    assert (Hnev : forall v, v <> a -> ne v = true).
    { intros v Hv. unfold ne. by apply negb_true_iff, Z.eqb_neq. }
    simpl List.filter.
    destruct (np_contains a Xb) eqn:Hin; [destruct (coin n)|].
    + unfold filtered at 1. rewrite (filter_true Xb), (select_true Xb yb Hb).
      destruct (IH (List.filter ne Xa) Xb (select ne Xa ya) yb (S n) Hnd)
        as (fa & fb & Hrun & Hone & Hother); [by apply select_length | done |].
      rewrite Hrun. exists (fun x => ne x && fa x), fb. split; [|split].
      * unfold filtered. rewrite filter_filter, select_select. simpl length.
        f_equal. lia.
      * intros v Hv Hvb. apply elem_of_cons in Hv as [->|Hv].
        -- destruct (Hother a) as [_ ->]; [by intros [? _]|]. by rewrite Hnea.
        -- rewrite Hnev by (intros ->; done). by apply Hone.
      * intros v Hv. destruct (decide (v = a)) as [->|Hva].
        -- exfalso. apply Hv. split; [by left | by apply np_contains_spec].
        -- rewrite Hnev by done. apply Hother. intros [? ?]. apply Hv.
           split; [by right | done].
    + unfold filtered at 1. rewrite (filter_true Xa), (select_true Xa ya Ha).
      destruct (IH Xa (List.filter ne Xb) ya (select ne Xb yb) (S n) Hnd)
        as (fa & fb & Hrun & Hone & Hother); [done | by apply select_length |].
      rewrite Hrun. exists fa, (fun x => ne x && fb x). split; [|split].
      * unfold filtered. rewrite filter_filter, select_select. simpl length.
        rewrite (filter_ext_in (fun a' => np_contains a' (List.filter ne Xb))
                   (fun a' => np_contains a' Xb) todo).
        -- f_equal. lia.
        -- intros v Hv. apply np_contains_filter_ne. intros ->.
           by apply list_elem_of_In in Hv.
      * intros v Hv Hvb. apply elem_of_cons in Hv as [->|Hv].
        -- destruct (Hother a) as [-> _]; [by intros [? _]|]. by rewrite Hnea.
        -- rewrite Hnev by (intros ->; done). apply Hone; [done|].
           apply elem_of_filter_bool. split; [done|]. apply Hnev. by intros ->.
      * intros v Hv. destruct (decide (v = a)) as [->|Hva].
        -- exfalso. apply Hv. split; [by left | by apply np_contains_spec].
        -- rewrite Hnev by done. apply Hother. intros [? Hvb]. apply Hv.
           split; [by right|]. by apply elem_of_filter_bool in Hvb as [? _].
    + destruct (IH Xa Xb ya yb n Hnd Ha Hb) as (fa & fb & Hrun & Hone & Hother).
      rewrite Hrun. exists fa, fb. split; [done|]. split.
      * intros v Hv Hvb. apply elem_of_cons in Hv as [->|Hv]; [|by apply Hone].
        apply np_contains_spec in Hvb. congruence.
      * intros v Hv. apply Hother. intros [? ?]. apply Hv. split; [by right | done].
Qed.

(** What C2 describes holds when no value is repeated in [X_a]: one draw
    per common value, after which exactly one side retains the value, the
    other values being kept. *)
Lemma repair_exactly_one_side coin Xa Xb ya yb n :
  NoDup Xa -> length Xa = length ya -> length Xb = length yb ->
  exists r,
    remove_cross_contamination coin Xa Xb ya yb n
      = (Ok r, (n + length (List.filter (fun a => np_contains a Xb) Xa))%nat)
    /\ (forall v, v ∈ Xa -> v ∈ Xb ->
          (v ∈ X_a r /\ (v ∉ X_b r)) \/ ((v ∉ X_a r) /\ v ∈ X_b r))
    /\ (forall v, ~ (v ∈ Xa /\ v ∈ Xb) ->
          (v ∈ X_a r <-> v ∈ Xa) /\ (v ∈ X_b r <-> v ∈ Xb)).
Proof.
  intros Hnd Ha Hb.
  destruct (repair_loop_nodup coin Xa Xa Xb ya yb n Hnd Ha Hb)
    as (fa & fb & Hrun & Hone & Hother).
  exists (filtered fa fb Xa Xb ya yb). split; [exact Hrun|]. simpl. split.
  - intros v Hva Hvb. rewrite !elem_of_filter_bool. specialize (Hone v Hva Hvb).
    destruct (fb v); simpl in Hone; rewrite Hone; [right|left]; split; try done;
      by intros [_ ?].
  - intros v Hv. rewrite !elem_of_filter_bool. destruct (Hother v Hv) as [-> ->].
    split; split; try tauto.
Qed.

(** ** The stratified partitioner *)

Lemma support_app labs1 labs2 l :
  support (labs1 ++ labs2) l = (support labs1 l + support labs2 l)%nat.
Proof. unfold support. by rewrite List.filter_app, length_app. Qed.

Lemma support_Permutation labs1 labs2 l :
  labs1 ≡ₚ labs2 -> support labs1 l = support labs2 l.
Proof.
  unfold support. induction 1 as [|x ? ? ? IH|x y ?|? ? ? ? IH1 ? IH2]; simpl.
  - reflexivity.
  - destruct (String.eqb l x); simpl; by rewrite IH.
  - destruct (String.eqb l y), (String.eqb l x); reflexivity.
  - by rewrite IH1.
Qed.

Lemma support_pos labs l : l ∈ labs -> (1 <= support labs l)%nat.
Proof.
  unfold support. induction labs as [|x labs IH]; intros Hin.
  - by apply elem_of_nil in Hin.
  - simpl. destruct (String.eqb l x) eqn:E; simpl; [lia|].
    apply elem_of_cons in Hin as [->|Hin]; [|by apply IH].
    by rewrite String.eqb_refl in E.
Qed.

Lemma elem_of_map_snd {A B} (rows : list (A * B)) (l : B) :
  l ∈ map snd rows <-> exists k, (k, l) ∈ rows.
Proof.
  induction rows as [|[k' l'] rows IH]; simpl.
  - split; [intros H; by apply elem_of_nil in H | intros [k H]; by apply elem_of_nil in H].
  - rewrite elem_of_cons, IH. split.
    + intros [->|[k H]]; [exists k'; left | exists k; right]; done.
    + intros [k H]. apply elem_of_cons in H as [H|H]; [left; congruence | right; eauto].
Qed.

Lemma map_delete {A B} (f : A -> B) (l : list A) (i : nat) :
  delete i (map f l) = map f (delete i l).
Proof.
  revert i. induction l as [|x l IH]; intros [|i]; simpl; try reflexivity.
  by rewrite <- IH.
Qed.

Lemma lookup_map {A B} (f : A -> B) (l : list A) (i : nat) (x : A) :
  l !! i = Some x -> map f l !! i = Some (f x).
Proof.
  revert i. induction l as [|y l IH]; intros [|i] H; simpl in *; try discriminate.
  - congruence.
  - by apply IH.
Qed.

Lemma np_where_first_spec (rows : list (Z * string)) (l : string) :
  l ∈ map snd rows ->
  exists i k, np_where_first (map snd rows) l = Ok i /\ rows !! i = Some (k, l).
Proof.
  induction rows as [|[k' l'] rows IH]; simpl; intros Hin.
  - by apply elem_of_nil in Hin.
  - destruct (String.eqb l' l) eqn:E.
    + apply String.eqb_eq in E as ->. by exists 0%nat, k'.
    + apply String.eqb_neq in E.
      apply elem_of_cons in Hin as [->|Hin]; [done|].
      destruct (IH Hin) as (i & k & -> & Hi). by exists (S i), k.
Qed.

Lemma take_single_spec {S} (rows : list (Z * string)) (sf : list Z) (l : string) (s : S) :
  l ∈ map snd rows ->
  exists i k, rows !! i = Some (k, l)
    /\ take_single l (Singles sf (map snd rows) (map fst rows)) s
       = (Ok (Singles (sf ++ [k]) (map snd (delete i rows)) (map fst (delete i rows))), s).
Proof.
  intros Hin. destruct (np_where_first_spec rows l Hin) as (i & k & Hw & Hi).
  exists i, k. split; [done|].
  assert (Hlt : (i < length rows)%nat) by (by eapply lookup_lt_Some).
  unfold take_single, bind, lift, ret, np_get, np_delete. simpl.
  rewrite Hw, (lookup_map fst rows i _ Hi), !length_map. simpl.
  destruct (decide (i < length rows)%nat); [|lia].
  by rewrite !map_delete.
Qed.

(** The loop that takes the singleton labels out, over any list [ls] of
    distinct labels that occur in the rows: it does not raise, it moves one
    row per label, the one found first, and appends its file. *)
Lemma singles_loop {S} (ls : list string) : forall (rows : list (Z * string)) sf (s : S),
  NoDup ls -> (forall l, l ∈ ls -> l ∈ map snd rows) ->
  exists ks rows',
    for_each ls take_single (Singles sf (map snd rows) (map fst rows)) s
      = (Ok (Singles (sf ++ ks) (map snd rows') (map fst rows')), s)
    /\ rows ≡ₚ zip ks ls ++ rows' /\ length ks = length ls.
Proof.
  induction ls as [|l ls IH]; intros rows sf s Hnd Hin.
  - exists [], rows. simpl. by rewrite app_nil_r.
  - apply NoDup_cons in Hnd as [Hl Hnd].
    destruct (take_single_spec rows sf l s) as (i & k & Hi & Hstep).
    { apply Hin. by left. }
    destruct (IH (delete i rows) (sf ++ [k]) s Hnd) as (ks & rows' & Hrun & Hperm & Hlen).
    { intros l' Hl'. apply elem_of_map_snd.
      assert (Hl'' : l' ∈ map snd rows) by (apply Hin; by right).
      apply elem_of_map_snd in Hl'' as [k' Hk'].
      exists k'. rewrite (delete_Permutation rows i (k, l) Hi) in Hk'.
      apply elem_of_cons in Hk' as [Heq|Hk']; [|done].
      inversion Heq; subst. done. }
    exists (k :: ks), rows'. simpl. unfold bind. rewrite Hstep, Hrun.
    rewrite <- app_assoc. simpl. repeat split.
    + rewrite (delete_Permutation rows i (k, l) Hi). by rewrite Hperm.
    + by rewrite Hlen.
Qed.

Lemma elem_of_singleton_labels labs l :
  l ∈ singleton_labels labs <-> l ∈ labs /\ support labs l = 1%nat.
Proof.
  unfold singleton_labels, np_unique.
  rewrite list_elem_of_In, filter_In, <- list_elem_of_In.
  rewrite merge_sort_Permutation, elem_of_remove_dups, Nat.eqb_eq. done.
Qed.

Lemma NoDup_filter_bool {A} (f : A -> bool) (l : list A) : NoDup l -> NoDup (List.filter f l).
Proof. rewrite !NoDup_ListNoDup. apply List.NoDup_filter. Qed.

Lemma NoDup_singleton_labels labs : NoDup (singleton_labels labs).
Proof.
  unfold singleton_labels, np_unique. apply NoDup_filter_bool.
  rewrite merge_sort_Permutation. apply NoDup_remove_dups.
Qed.

(** What the loop leaves, for a label of support 1 among those taken out:
    no row with that label stays, and its file is among the files
    appended. *)
Lemma singles_sound (rows rows' : list (Z * string)) ks ls l :
  rows ≡ₚ zip ks ls ++ rows' -> length ks = length ls ->
  l ∈ ls -> support (map snd rows) l = 1%nat ->
  (l ∉ map snd rows') /\ (forall k, (k, l) ∈ rows -> k ∈ ks).
Proof.
  intros Hperm Hlen Hl Hsup.
  assert (Hsnd : map snd (zip ks ls) = ls).
  { clear -Hlen. revert ls Hlen. induction ks as [|k ks IH]; intros [|l ls] H;
      simpl in *; try lia; try reflexivity. by rewrite IH by lia. }
  assert (Hcount : (support ls l + support (map snd rows') l = 1)%nat).
  { rewrite <- Hsup, (support_Permutation (map snd rows) (map snd (zip ks ls ++ rows'))).
    - by rewrite List.map_app, support_app, Hsnd.
    - by apply Permutation_map. }
  pose proof (support_pos ls l Hl) as Hpos.
  assert (Hnot : l ∉ map snd rows').
  { intros H. apply support_pos in H. lia. }
  split; [done|]. intros k Hk. rewrite Hperm in Hk.
  apply elem_of_app in Hk as [Hk|Hk].
  - by apply elem_of_zip_l in Hk.
  - exfalso. apply Hnot. apply elem_of_map_snd. by exists k.
Qed.

(** The state after the loop of [_stratify_samples], on the rows of any
    mapping. *)
Lemma stratify_singles {S} (rows : list (Z * string)) (s : S) :
  exists ks rows',
    for_each (singleton_labels (map snd rows)) take_single
      (Singles [] (map snd rows) (map fst rows)) s
      = (Ok (Singles ks (map snd rows') (map fst rows')), s)
    /\ (forall k l, (k, l) ∈ rows -> support (map snd rows) l = 1%nat -> k ∈ ks)
    /\ (forall k l, (k, l) ∈ rows' -> (k, l) ∈ rows /\ support (map snd rows) l <> 1%nat)
    /\ (forall k l, (k, l) ∈ rows -> support (map snd rows) l <> 1%nat -> (k, l) ∈ rows').
Proof.
  destruct (singles_loop (singleton_labels (map snd rows)) rows [] s)
    as (ks & rows' & Hrun & Hperm & Hlen).
  { apply NoDup_singleton_labels. }
  { intros l Hl. by apply elem_of_singleton_labels in Hl as [Hl _]. }
  exists ks, rows'. split; [exact Hrun|]. repeat split.
  - intros k l Hk Hsup.
    eapply (singles_sound rows rows' ks _ l Hperm Hlen); [|done..].
    apply elem_of_singleton_labels. split; [|done].
    apply elem_of_map_snd. by exists k.
  - rewrite Hperm. apply elem_of_app. by right.
  - intros Hsup.
    assert (Hl : l ∈ singleton_labels (map snd rows)).
    { apply elem_of_singleton_labels. split; [|done].
      apply elem_of_map_snd. exists k. rewrite Hperm. apply elem_of_app. by right. }
    destruct (singles_sound rows rows' ks _ l Hperm Hlen Hl Hsup) as [Hnot _].
    apply Hnot. apply elem_of_map_snd. by exists k.
  - intros k l Hk Hsup. rewrite Hperm in Hk.
    apply elem_of_app in Hk as [Hk|Hk]; [|done].
    apply elem_of_zip_r in Hk. by apply elem_of_singleton_labels in Hk as [_ Hk].
Qed.

Lemma elem_of_list_set (v : Z) (X : list Z) : v ∈ list_set X <-> v ∈ X.
Proof. unfold list_set. by rewrite elem_of_elements, elem_of_list_to_set. Qed.

Lemma unzip_rows_ok (rows : list (Z * string)) :
  rows <> [] -> unzip_rows rows = Ok (map fst rows, map snd rows).
Proof. by destruct rows. Qed.

Lemma stratify_unfold coin tts idx seed tp vp n :
  expand idx <> [] ->
  exists ks rows',
    (forall k l, (k, l) ∈ expand idx ->
       support (map snd (expand idx)) l = 1%nat -> k ∈ ks)
    /\ (forall k l, (k, l) ∈ rows' ->
          (k, l) ∈ expand idx /\ support (map snd (expand idx)) l <> 1%nat)
    /\ (forall k l, (k, l) ∈ expand idx ->
          support (map snd (expand idx)) l <> 1%nat -> (k, l) ∈ rows')
    /\ _stratify_samples coin tts idx seed tp vp n =
         match rows' with
         | [] => (Ok ([], [], Some []), n)
         | _ => stratify_rest coin tts ks rows' seed tp vp n
         end.
Proof.
  intros Hne.
  destruct (stratify_singles (expand idx) n) as (ks & rows' & Hrun & H1 & H2 & H3).
  exists ks, rows'. split; [done|]. split; [done|]. split; [done|].
  unfold _stratify_samples, bind at 1, lift. rewrite unzip_rows_ok by done.
  unfold bind at 1. simpl fst. simpl snd. rewrite Hrun.
  destruct rows' as [|r rows']; [reflexivity|].
  cbn [file_indices labels single_files]. rewrite !length_map.
  reflexivity.
Qed.

(** C3, as the code has it. When some label has a support other than 1, so
    that rows are left for the split, and [_stratify_samples] returns, every
    image index that carries a label of support 1 is in the returned train
    list. *)
Theorem stratify_singletons_in_train coin tts idx seed tp vp n train val test n' :
  _stratify_samples coin tts idx seed tp vp n = (Ok (train, val, test), n') ->
  (exists k l, (k, l) ∈ expand idx /\ support (map snd (expand idx)) l <> 1%nat) ->
  forall k l, (k, l) ∈ expand idx -> support (map snd (expand idx)) l = 1%nat ->
  k ∈ train.
Proof.
  intros Hrun (k0 & l0 & Hk0 & Hl0) k l Hk Hl.
  destruct (stratify_unfold coin tts idx seed tp vp n) as (ks & rows' & H1 & _ & H3 & E).
  { intros Hnil. rewrite Hnil in Hk. by apply elem_of_nil in Hk. }
  rewrite E in Hrun. clear E.
  pose proof (H3 k0 l0 Hk0 Hl0) as Hleft.
  destruct rows' as [|r rows']; [by apply elem_of_nil in Hleft|].
  unfold stratify_rest, bind in Hrun.
  destruct (split_and_repair _ _ _ _ _ _ n) as [[s1|e] n1]; [|discriminate].
  assert (Hin : k ∈ list_set (X_a s1 ++ ks)).
  { apply elem_of_list_set, elem_of_app. right. by eapply H1. }
  destruct (Qeq_bool tp 0).
  - unfold ret in Hrun. by inversion Hrun; subst.
  - destruct (split_and_repair _ _ _ _ _ _ n1) as [[s2|e] n2]; [|discriminate].
    unfold ret in Hrun. by inversion Hrun; subst.
Qed.

Lemma stratify_singletons_in_train_witness :
  _stratify_samples (fun _ => true) tail_split two_rare 0 0 (1 # 2) 0%nat
    = (Ok ([1; 0], [1], None), 0%nat)
  /\ 0 ∈ [1; 0].
Proof.
  split; [reflexivity|].
  apply (stratify_singletons_in_train (fun _ => true) tail_split two_rare 0 0 (1 # 2)
           0%nat [1; 0] [1] None 0%nat) with (l := "rare0").
  - reflexivity.
  - exists 0, "common". split; [|discriminate]. right. left.
  - left.
  - reflexivity.
Defined.

(** C3, the claim refuted: with a single image and a single label, the
    label has support 1 and the image is not in the returned train list. *)
Lemma stratify_singleton_not_in_train :
  (0, "rare") ∈ expand [(0, ["rare"])]
  /\ support (map snd (expand [(0, ["rare"])])) "rare" = 1%nat
  /\ _stratify_samples (fun _ => true) tail_split [(0, ["rare"])] 0 0 (1 # 2) 0%nat
     = (Ok ([], [], Some []), 0%nat)
  /\ 0 ∉ @nil Z.
Proof.
  split; [left|]. split; [reflexivity|]. split; [reflexivity|].
  apply not_elem_of_nil.
Qed.

(** C4, as the code has it. On the empty mapping [_stratify_samples]
    raises ValueError, the unpacking of no rows; on a mapping that has rows
    and whose labels all have support 1 it returns three empty lists,
    whatever the test percentage, zero included. *)
Theorem stratify_degenerate coin tts seed tp vp n :
  _stratify_samples coin tts [] seed tp vp n = (Raise ValueError, n)
  /\ forall idx,
       expand idx <> [] ->
       (forall l, l ∈ map snd (expand idx) -> support (map snd (expand idx)) l = 1%nat) ->
       _stratify_samples coin tts idx seed tp vp n = (Ok ([], [], Some []), n).
Proof.
  split; [reflexivity|]. intros idx Hne Hall.
  destruct (stratify_unfold coin tts idx seed tp vp n Hne) as (ks & rows' & _ & H2 & _ & E).
  rewrite E. destruct rows' as [|[k l] rows']; [reflexivity|].
  destruct (H2 k l) as [Hin Hsup]; [left|].
  exfalso. apply Hsup, Hall. apply elem_of_map_snd. by exists k.
Qed.

Lemma stratify_degenerate_witness :
  _stratify_samples (fun _ => true) tail_split [(0, ["rare"]); (1, ["odd"])] 0 0 (1 # 2) 0%nat
  = (Ok ([], [], Some []), 0%nat).
Proof.
  apply (stratify_degenerate (fun _ => true) tail_split 0 0 (1 # 2) 0%nat).
  - discriminate.
  - intros l Hl. simpl in Hl.
    apply elem_of_cons in Hl as [->|Hl]; [reflexivity|].
    apply elem_of_cons in Hl as [->|Hl]; [reflexivity|].
    by apply elem_of_nil in Hl.
Defined.

(** C4, the claim refuted: the empty mapping makes [_stratify_samples]
    raise. *)
Lemma stratify_empty_raises :
  _stratify_samples (fun _ => true) tail_split [] 0 0 (1 # 2) 0%nat
  = (Raise ValueError, 0%nat).
Proof. reflexivity. Qed.

(** C1. The mapping [two_rare] with [val_percentage = 1/2] and no test
    part: whichever of its two rows the library puts in the second part,
    the image of that row is returned both in train and in val. *)
Theorem stratify_singleton_overlap coin tts seed n i j :
  (i = 0 /\ j = 1 \/ i = 1 /\ j = 0) ->
  tts [0; 1] ["common"; "common"] (tmp_fraction (1 # 2) 0) seed ["common"; "common"]
    = Ok ([i], [j], ["common"], ["common"]) ->
  exists train val,
    _stratify_samples coin tts two_rare seed 0 (1 # 2) n = (Ok (train, val, None), n)
    /\ j ∈ train /\ j ∈ val.
Proof.
  intros Hij Htts.
  assert (E : _stratify_samples coin tts two_rare seed 0 (1 # 2) n
              = stratify_rest coin tts [0; 1] [(0, "common"); (1, "common")]
                  seed 0 (1 # 2) n) by reflexivity.
  rewrite E. unfold stratify_rest, split_and_repair, bind, lift.
  cbn [map fst snd]. rewrite Htts.
  destruct Hij as [[-> ->]|[-> ->]].
  - exists (list_set [0; 0; 1]), (list_set [1]). split; [reflexivity|].
    rewrite !elem_of_list_set. split; [right; right; left | left].
  - exists (list_set [1; 0; 1]), (list_set [0]). split; [reflexivity|].
    rewrite !elem_of_list_set. split; [right; left | left].
Qed.

Lemma stratify_singleton_overlap_witness :
  exists train val,
    _stratify_samples (fun _ => true) tail_split two_rare 0 0 (1 # 2) 0%nat
      = (Ok (train, val, None), 0%nat)
    /\ 1 ∈ train /\ 1 ∈ val.
Proof.
  apply (stratify_singleton_overlap (fun _ => true) tail_split 0 0%nat 0 1).
  - left. split; reflexivity.
  - reflexivity.
Defined.

(** A split whose parts are aligned is repaired without error, into sides
    that share no value. *)
Lemma split_and_repair_spec coin tts X y q seed n a b c d :
  tts X y q seed y = Ok (a, b, c, d) -> length a = length c -> length b = length d ->
  exists r n',
    split_and_repair coin tts X y q seed n = (Ok r, n')
    /\ (forall v, v ∈ X_a r -> v ∈ X_b r -> False)
    /\ length (X_b r) = length (y_b r).
Proof.
  intros Htts Ha Hb. unfold split_and_repair, bind, lift. rewrite Htts.
  destruct (repair_loop coin a a b c d n Ha Hb) as (fa & fb & n' & Hrun & Hdisj).
  exists (filtered fa fb a b c d), n'. unfold remove_cross_contamination.
  split; [exact Hrun|]. simpl. split.
  - intros v Hva Hvb. apply (Hdisj v); [|done..].
    by apply elem_of_filter_bool in Hva as [Hva _].
  - by apply select_length.
Qed.

(** The part of C1 that holds: with a library that returns aligned parts,
    [_stratify_samples] on a mapping with rows returns, and the returned val
    and test lists share no index. *)
Lemma stratify_val_test_disjoint coin tts idx seed tp vp n :
  (forall X y q, length X = length y ->
     exists a b c d, tts X y q seed y = Ok (a, b, c, d)
       /\ length a = length c /\ length b = length d) ->
  expand idx <> [] ->
  exists train val test n',
    _stratify_samples coin tts idx seed tp vp n = (Ok (train, val, test), n')
    /\ forall test', test = Some test' -> forall i, i ∈ val -> i ∈ test' -> False.
Proof.
  intros Htts Hne.
  destruct (stratify_unfold coin tts idx seed tp vp n Hne) as (ks & rows' & _ & _ & _ & E).
  rewrite E. clear E. destruct rows' as [|r rows'].
  { exists [], [], (Some []), n. split; [done|].
    intros ? _ i Hi. by apply elem_of_nil in Hi. }
  unfold stratify_rest, bind.
  destruct (Htts (map fst (r :: rows')) (map snd (r :: rows')) (tmp_fraction vp tp))
    as (a & b & c & d & H1 & Ha & Hb); [by rewrite !length_map|].
  destruct (split_and_repair_spec coin tts _ _ _ seed n a b c d H1 Ha Hb)
    as (s1 & n1 & -> & _ & Hlen).
  destruct (Qeq_bool tp 0).
  { eexists _, _, None, n1. split; [reflexivity|]. discriminate. }
  destruct (Htts (X_b s1) (y_b s1) (test_fraction vp tp))
    as (a' & b' & c' & d' & H2 & Ha' & Hb'); [done|].
  destruct (split_and_repair_spec coin tts _ _ _ seed n1 a' b' c' d' H2 Ha' Hb')
    as (s2 & n2 & -> & Hdisj & _).
  eexists _, _, (Some _), n2. split; [reflexivity|].
  intros ? [= <-] i Hi Hi'. rewrite elem_of_list_set in Hi, Hi'. by eapply Hdisj.
Qed.

(** ** Rounding to the nearest double *)

Lemma pow2_pos (k : Z) : (0 < pow2 k)%Q.
Proof. apply Qpower_0_lt. reflexivity. Qed.

Lemma pow2_add (a b : Z) : (pow2 (a + b) == pow2 a * pow2 b)%Q.
Proof. apply Qpower_plus. discriminate. Qed.

Lemma pow2_le (a b : Z) : a <= b -> (pow2 a <= pow2 b)%Q.
Proof. intros H. apply Qpower_le_compat_l; [exact H | discriminate]. Qed.

Lemma pow2_inject (k : Z) : 0 <= k -> (pow2 k == inject_Z (2 ^ k))%Q.
Proof. intros H. unfold pow2. by rewrite Zpower_Qpower. Qed.

Lemma round_half_even_floor (y : Q) :
  Qfloor y <= round_half_even y <= Qfloor y + 1.
Proof.
  unfold round_half_even.
  destruct (y - inject_Z (Qfloor y) ?= 1 # 2)%Q; [destruct (Z.even _)| |]; lia.
Qed.

Lemma round_half_even_upper (y : Q) : (inject_Z (round_half_even y) <= y + (1 # 2))%Q.
Proof.
  pose proof (Qfloor_le y) as Hf.
  unfold round_half_even.
  destruct (y - inject_Z (Qfloor y) ?= 1 # 2)%Q eqn:E.
  - apply Qeq_alt in E.
    destruct (Z.even _); [|rewrite inject_Z_plus; change (inject_Z 1) with 1%Q];
      revert Hf E; generalize (inject_Z (Qfloor y)); intros; lra.
  - revert Hf; generalize (inject_Z (Qfloor y)); intros; lra.
  - apply Qgt_alt in E. rewrite inject_Z_plus. change (inject_Z 1) with 1%Q.
    revert Hf E; generalize (inject_Z (Qfloor y)); intros; lra.
Qed.

Lemma round_half_even_ge (k : Z) (y : Q) :
  (inject_Z k <= y)%Q -> k <= round_half_even y.
Proof.
  intros H. apply Qfloor_resp_le in H. rewrite Qfloor_Z in H.
  pose proof (round_half_even_floor y). lia.
Qed.

Lemma floor_log2_le (x : Q) : (0 < x)%Q -> (pow2 (floor_log2 x) <= x)%Q.
Proof.
  intros Hx. unfold floor_log2.
  destruct (Qle_bool _ x) eqn:E; [by apply Qle_bool_iff in E|]. clear E.
  destruct x as [p q]. cbn [Qnum Qden].
  assert (Hp : 0 < p) by (unfold Qlt in Hx; simpl in Hx; lia).
  pose proof (Z.log2_spec p Hp) as [Ha _].
  pose proof (Z.log2_spec (Z.pos q) (Pos2Z.is_pos q)) as [_ Hb].
  pose proof (Z.log2_nonneg p) as Ha0.
  pose proof (Z.log2_nonneg (Z.pos q)) as Hb0.
  replace (Z.log2 p - Z.log2 (Z.pos q) - 1)
    with (Z.log2 p - Z.succ (Z.log2 (Z.pos q))) by lia.
  unfold pow2 at 1. rewrite Qpower_minus by discriminate.
  fold (pow2 (Z.log2 p)). fold (pow2 (Z.succ (Z.log2 (Z.pos q)))).
  rewrite !pow2_inject by lia.
  apply Qle_shift_div_r.
  - change 0%Q with (inject_Z 0). rewrite <- Zlt_Qlt. lia.
  - unfold Qle. cbn [Qnum Qden Qmult inject_Z]. rewrite Pos2Z.inj_mul.
    revert Ha Hb. generalize (2 ^ Z.log2 p) (2 ^ Z.succ (Z.log2 (Z.pos q))).
    intros A B HA HB. pose proof (Pos2Z.is_pos q). nia.
Qed.

Lemma fl_pos_upper (x : Q) :
  (0 < x)%Q -> (fl_pos x <= x + x * (1 # 9007199254740992) + pow2 (-1075))%Q.
Proof.
  intros Hx. unfold fl_pos.
  set (e := Z.max (floor_log2 x - 52) (-1074)).
  pose proof (pow2_pos e) as He.
  pose proof (pow2_pos (-1075)) as Hd.
  pose proof (round_half_even_upper (x / pow2 e)) as Hm.
  apply (Qmult_le_compat_r _ _ (pow2 e)) in Hm; [|lra].
  assert (Hs : ((x / pow2 e + (1 # 2)) * pow2 e == x + pow2 e * (1 # 2))%Q).
  { field. lra. }
  rewrite Hs in Hm. clear Hs.
  assert (Hu : (pow2 e * (1 # 2) <= x * (1 # 9007199254740992) + pow2 (-1075))%Q);
    [|lra].
  destruct (Z.max_spec (floor_log2 x - 52) (-1074)) as [[_ E]|[_ E]]; fold e in E; rewrite E.
  - assert (E' : (pow2 (-1074) * (1 # 2) == pow2 (-1075))%Q) by (vm_compute; reflexivity).
    rewrite E'. lra.
  - replace (floor_log2 x - 52) with (floor_log2 x + -52) by lia.
    rewrite pow2_add.
    pose proof (floor_log2_le x Hx) as Hl.
    assert (E' : (pow2 (-52) * (1 # 2) == 1 # 9007199254740992)%Q) by (vm_compute; reflexivity).
    rewrite <- Qmult_assoc, E'. lra.
Qed.

Lemma fl_pos_nonneg (x : Q) : (0 < x)%Q -> (0 <= fl_pos x)%Q.
Proof.
  intros Hx. unfold fl_pos.
  set (e := Z.max (floor_log2 x - 52) (-1074)).
  pose proof (pow2_pos e) as He.
  apply Qmult_le_0_compat; [|lra].
  change 0%Q with (inject_Z 0). rewrite <- Zle_Qle.
  apply round_half_even_ge. change (inject_Z 0) with 0%Q.
  apply Qle_shift_div_l; lra.
Qed.

Lemma fl_cases (x : Q) :
  (x == 0 /\ fl x = 0)%Q \/ (0 < x /\ fl x = fl_pos x)%Q
  \/ (x < 0 /\ fl x = - fl_pos (- x))%Q.
Proof.
  unfold fl. destruct (x ?= 0)%Q eqn:E.
  - left. by apply Qeq_alt in E.
  - right. right. by apply Qlt_alt in E.
  - right. left. by apply Qgt_alt in E.
Qed.

Lemma fl_nonneg (x : Q) : (0 <= x)%Q -> (0 <= fl x)%Q.
Proof.
  intros Hx. destruct (fl_cases x) as [[_ ->]|[[H ->]|[H _]]].
  - lra.
  - by apply fl_pos_nonneg.
  - lra.
Qed.

Lemma fl_upper (x : Q) :
  (0 <= x)%Q -> (fl x <= x + x * (1 # 9007199254740992) + pow2 (-1075))%Q.
Proof.
  intros Hx. pose proof (pow2_pos (-1075)) as Hd.
  destruct (fl_cases x) as [[H ->]|[[H ->]|[H _]]].
  - lra.
  - by apply fl_pos_upper.
  - lra.
Qed.

Lemma fl_ge_1 (x : Q) : (1 <= x)%Q -> (1 <= fl x)%Q.
Proof.
  intros Hx. destruct (fl_cases x) as [[H _]|[[H ->]|[H _]]]; [lra| |lra].
  pose proof (floor_log2_le x H) as Hl.
  unfold fl_pos. set (e := Z.max (floor_log2 x - 52) (-1074)).
  pose proof (pow2_pos e) as He.
  destruct (Z.le_gt_cases e 0) as [He0|He0].
  - assert (E : (inject_Z (2 ^ (- e)) * pow2 e == 1)%Q).
    { rewrite <- pow2_inject by lia. rewrite <- pow2_add.
      replace (- e + e) with 0 by lia. reflexivity. }
    rewrite <- E at 1.
    apply Qmult_le_compat_r; [|lra].
    rewrite <- Zle_Qle. apply round_half_even_ge.
    apply Qle_shift_div_l; [done|]. lra.
  - assert (Ee : e = floor_log2 x - 52) by lia.
    assert (Hxe : (pow2 e <= x)%Q).
    { apply Qle_trans with (pow2 (floor_log2 x)); [|done]. apply pow2_le. lia. }
    assert (H1 : (1 <= pow2 e)%Q).
    { apply Qpower_1_le; [discriminate | lia]. }
    assert (Hm : 1 <= round_half_even (x / pow2 e)).
    { apply round_half_even_ge. apply Qle_shift_div_l; [done|].
      change (inject_Z 1) with 1%Q. lra. }
    rewrite Zle_Qle in Hm. change (inject_Z 1) with 1%Q in Hm.
    apply Qle_trans with (1 * pow2 e)%Q; [lra|].
    apply Qmult_le_compat_r; [done | lra].
Qed.

Lemma round_half_even_le (k : Z) (y : Q) :
  (y <= inject_Z k)%Q -> round_half_even y <= k.
Proof.
  intros H. pose proof (Qfloor_le y) as Hf.
  assert (Hfk : Qfloor y <= k).
  { apply Qfloor_resp_le in H. by rewrite Qfloor_Z in H. }
  unfold round_half_even.
  destruct (y - inject_Z (Qfloor y) ?= 1 # 2)%Q eqn:E; [|done|].
  - apply Qeq_alt in E. destruct (Z.even _); [done|].
    destruct (Z.eq_dec (Qfloor y) k) as [Ek|]; [|lia]. rewrite Ek in E.
    exfalso. revert H E. generalize (inject_Z k). intros; lra.
  - apply Qgt_alt in E.
    destruct (Z.eq_dec (Qfloor y) k) as [Ek|]; [|lia]. rewrite Ek in E.
    exfalso. revert H E. generalize (inject_Z k). intros; lra.
Qed.

Lemma exponent_nonpos (x : Q) :
  (0 < x)%Q -> (x < pow2 53)%Q -> Z.max (floor_log2 x - 52) (-1074) <= 0.
Proof.
  intros Hx Hlt. pose proof (floor_log2_le x Hx) as Hl.
  assert (H : floor_log2 x < 53).
  { apply (Qpower_lt_compat_l_inv 2); [|reflexivity].
    apply Qle_lt_trans with x; done. }
  lia.
Qed.

Lemma pow2_grid (k e : Z) :
  e <= 0 -> (inject_Z (k * 2 ^ (- e)) * pow2 e == inject_Z k)%Q.
Proof.
  intros He. rewrite inject_Z_mult, <- pow2_inject by lia.
  rewrite <- Qmult_assoc, <- pow2_add.
  replace (- e + e) with 0 by lia. change (pow2 0) with 1%Q. ring.
Qed.

Lemma fl_ge_int (k : Z) (x : Q) :
  (inject_Z k <= x)%Q -> (0 <= x)%Q -> (x < pow2 53)%Q -> (inject_Z k <= fl x)%Q.
Proof.
  intros Hk Hx Hlt. destruct (fl_cases x) as [[H ->]|[[H ->]|[H _]]]; [lra| |lra].
  pose proof (exponent_nonpos x H Hlt) as He.
  unfold fl_pos. set (e := Z.max (floor_log2 x - 52) (-1074)) in *.
  pose proof (pow2_pos e) as Hp.
  rewrite <- (pow2_grid k e He).
  apply Qmult_le_compat_r; [|lra].
  rewrite <- Zle_Qle. apply round_half_even_ge.
  apply Qle_shift_div_l; [done|]. by rewrite pow2_grid.
Qed.

Lemma fl_le_int (k : Z) (x : Q) :
  (x <= inject_Z k)%Q -> (0 <= x)%Q -> (x < pow2 53)%Q -> (fl x <= inject_Z k)%Q.
Proof.
  intros Hk Hx Hlt. destruct (fl_cases x) as [[H ->]|[[H ->]|[H _]]]; [lra| |lra].
  pose proof (exponent_nonpos x H Hlt) as He.
  unfold fl_pos. set (e := Z.max (floor_log2 x - 52) (-1074)) in *.
  pose proof (pow2_pos e) as Hp.
  rewrite <- (pow2_grid k e He).
  apply Qmult_le_compat_r; [|lra].
  rewrite <- Zle_Qle. apply round_half_even_le.
  apply Qle_shift_div_r; [done|]. by rewrite pow2_grid.
Qed.

Lemma pow2_53 : (pow2 53 == inject_Z (2 ^ 53))%Q.
Proof. by apply pow2_inject. Qed.

(** A list length is a float as it stands. *)
Lemma fl_int (n : Z) : 0 <= n < 2 ^ 53 -> (fl (inject_Z n) == inject_Z n)%Q.
Proof.
  intros [H0 H1].
  assert (Hn : (0 <= inject_Z n)%Q).
  { change 0%Q with (inject_Z 0). by rewrite <- Zle_Qle. }
  assert (Hlt : (inject_Z n < pow2 53)%Q).
  { rewrite pow2_53. by rewrite <- Zlt_Qlt. }
  apply Qle_antisym.
  - apply fl_le_int; [apply Qle_refl | done | done].
  - apply fl_ge_int; [apply Qle_refl | done | done].
Qed.

Lemma fl_lt_1 (x : Q) : (fl x < 1)%Q -> (x < 1)%Q.
Proof.
  intros H. apply Qnot_le_lt. intros Hx. apply fl_ge_1 in Hx.
  by apply Qlt_not_le in H.
Qed.

(** ** The random partitioner *)

Lemma py_int_floor (x : Q) : (0 <= x)%Q -> py_int x = Qfloor x.
Proof.
  destruct x as [p q]. unfold py_int, Qfloor, Qle. simpl. intros H.
  apply Z.quot_div_nonneg; lia.
Qed.

Lemma Qfloor_nonneg (x : Q) : (0 <= x)%Q -> 0 <= Qfloor x.
Proof. intros H. apply (Qfloor_resp_le 0 x) in H. exact H. Qed.

(** [int(n * p)] in floats, for a fraction [p]: the floor of the exact
    product or one more, and below the exact product scaled by
    [1 + 2 ** -53] up to [2 ** -1075]. *)
Lemma float_size (n : Z) (p : Q) :
  0 <= n < 2 ^ 53 -> (0 <= p)%Q -> (p < 1)%Q ->
  let size := py_int (fl (py_float (inject_Z n) * p)) in
  Qfloor (inject_Z n * p) <= size <= Qfloor (inject_Z n * p) + 1
  /\ (inject_Z size
      <= inject_Z n * p + inject_Z n * p * (1 # 9007199254740992) + pow2 (-1075))%Q.
Proof.
  intros Hn Hp0 Hp1. cbv zeta. unfold py_float.
  assert (Hn0 : (0 <= inject_Z n)%Q).
  { change 0%Q with (inject_Z 0). rewrite <- Zle_Qle. lia. }
  assert (Hn1 : (inject_Z n < pow2 53)%Q).
  { rewrite pow2_53. rewrite <- Zlt_Qlt. lia. }
  pose proof (fl_int n Hn) as Hfn.
  set (x := (fl (inject_Z n) * p)%Q).
  assert (Ex : (x == inject_Z n * p)%Q) by (unfold x; by rewrite Hfn).
  assert (Hx0 : (0 <= x)%Q).
  { rewrite Ex. by apply Qmult_le_0_compat. }
  assert (Hx1 : (x < pow2 53)%Q).
  { apply Qle_lt_trans with (inject_Z n); [|done]. rewrite Ex.
    rewrite <- (Qmult_1_r (inject_Z n)) at 2.
    rewrite !(Qmult_comm (inject_Z n)).
    apply Qmult_le_compat_r; [lra | done]. }
  pose proof (fl_nonneg x Hx0) as Hf0.
  rewrite py_int_floor by done.
  rewrite <- Ex.
  split; [split|].
  - rewrite <- (Qfloor_Z (Qfloor x)). apply Qfloor_resp_le.
    apply fl_ge_int; [apply Qfloor_le | done | done].
  - rewrite <- (Qfloor_Z (Qfloor x + 1)). apply Qfloor_resp_le.
    apply fl_le_int; [|done|done].
    apply Qlt_le_weak, Qlt_floor.
  - apply Qle_trans with (fl x); [apply Qfloor_le | by apply fl_upper].
Qed.

(** The sizes of the three runs, for fractions in range. *)
Lemma compute_sizes_bounds (n : nat) (vp tp : Q) :
  Z.of_nat n < 2 ^ 53 ->
  (0 < vp)%Q -> (vp < 1)%Q -> (0 <= tp)%Q -> (tp < 1)%Q -> (vp + tp < 1)%Q ->
  let sz := compute_sizes n vp tp in
  Qfloor (inject_Z (Z.of_nat n) * vp) <= val_size sz
    <= Qfloor (inject_Z (Z.of_nat n) * vp) + 1
  /\ Qfloor (inject_Z (Z.of_nat n) * tp) <= test_size sz
    <= Qfloor (inject_Z (Z.of_nat n) * tp) + 1
  /\ 0 <= val_size sz /\ 0 <= test_size sz /\ 0 <= train_size sz
  /\ train_size sz + val_size sz + test_size sz = Z.of_nat n.
Proof.
  intros Hn Hv0 Hv1 Ht0 Ht1 Hsum. cbv zeta. unfold compute_sizes. cbn [train_size val_size test_size].
  assert (Hn' : 0 <= Z.of_nat n < 2 ^ 53) by lia.
  destruct (float_size (Z.of_nat n) vp Hn' (Qlt_le_weak _ _ Hv0) Hv1) as [Hv Hvu].
  destruct (float_size (Z.of_nat n) tp Hn' Ht0 Ht1) as [Ht Htu].
  cbv zeta in Hv, Hvu, Ht, Htu.
  set (v := py_int (fl (py_float (inject_Z (Z.of_nat n)) * vp))) in *.
  set (t := py_int (fl (py_float (inject_Z (Z.of_nat n)) * tp))) in *.
  assert (Hnv : (0 <= inject_Z (Z.of_nat n) * vp)%Q).
  { apply Qmult_le_0_compat; [|lra]. change 0%Q with (inject_Z 0). rewrite <- Zle_Qle. lia. }
  assert (Hnt : (0 <= inject_Z (Z.of_nat n) * tp)%Q).
  { apply Qmult_le_0_compat; [|lra]. change 0%Q with (inject_Z 0). rewrite <- Zle_Qle. lia. }
  pose proof (Qfloor_nonneg _ Hnv) as Hv0'.
  pose proof (Qfloor_nonneg _ Hnt) as Ht0'.
  assert (Hle : v + t < Z.of_nat n + 1).
  { rewrite Zlt_Qlt, !inject_Z_plus. change (inject_Z 1) with 1%Q.
    assert (Hs : (inject_Z (Z.of_nat n) * vp + inject_Z (Z.of_nat n) * tp
                  <= inject_Z (Z.of_nat n))%Q).
    { rewrite <- Qmult_plus_distr_r, (Qmult_comm _ (vp + tp)).
      rewrite <- (Qmult_1_l (inject_Z (Z.of_nat n))) at 2.
      apply Qmult_le_compat_r; [lra|].
      change 0%Q with (inject_Z 0). rewrite <- Zle_Qle. lia. }
    assert (Hb : (inject_Z (Z.of_nat n) <= 9007199254740991)%Q).
    { change 9007199254740991%Q with (inject_Z 9007199254740991).
      rewrite <- Zle_Qle. lia. }
    assert (Hd : (pow2 (-1075) <= 1 # 36028797018963968)%Q) by (vm_compute; discriminate).
    revert Hvu Htu Hs Hb Hd.
    generalize (inject_Z v) (inject_Z t) (inject_Z (Z.of_nat n) * vp)%Q
      (inject_Z (Z.of_nat n) * tp)%Q (inject_Z (Z.of_nat n)) (pow2 (-1075)).
    intros; lra. }
  repeat split; lia.
Qed.

(** Slicing with bounds in range: three contiguous runs. *)
Lemma slice_indices_runs (indices : list Z) (tr v t : Z) :
  0 <= tr -> 0 <= v -> tr + v <= Z.of_nat (length indices) ->
  slice_indices indices (Sizes tr v t)
  = (take (Z.to_nat tr) indices,
     take (Z.to_nat v) (drop (Z.to_nat tr) indices),
     drop (Z.to_nat (tr + v)) indices).
Proof.
  intros Htr Hv Hlen. unfold slice_indices, py_slice, py_bound. simpl.
  destruct (Z.ltb_spec tr 0); [lia|]. destruct (Z.ltb_spec (tr + v) 0); [lia|].
  rewrite !Z.min_l by lia. rewrite Nat.sub_0_r. repeat f_equal; try lia.
  apply take_ge. rewrite length_drop. lia.
Qed.

Lemma elem_of_py_range (n : nat) (i : Z) : i ∈ py_range n <-> 0 <= i < Z.of_nat n.
Proof.
  unfold py_range. rewrite list_elem_of_In, in_map_iff. split.
  - intros (k & <- & Hk). apply in_seq in Hk. lia.
  - intros H. exists (Z.to_nat i). split; [lia|]. apply in_seq. lia.
Qed.

Lemma NoDup_py_range (n : nat) : NoDup (py_range n).
Proof.
  unfold py_range. apply NoDup_ListNoDup, Finite.Injective_map_NoDup.
  - intros a b H. lia.
  - apply List.seq_NoDup.
Qed.

(** C9, as the code has it. For fractions in range, a seed that
    [np.random.seed] accepts and a permutation of [range(n)], the random
    partitioner cuts the permutation into three contiguous runs, train then
    val then test. The val run has [int(n * val)] indices, the product being
    the float product of the source: the floor of the exact product, or one
    more. The test run has [int(n * test)] indices, likewise, and train has
    the rest. The lengths add up to [n], no index is in two runs, and
    together the runs hold the indices of [range(n)]. *)
Theorem random_split_partition (np_permutation : Z -> nat -> list Z)
    (seed : Z) (n : nat) (vp tp : Q) :
  (forall seed n, np_permutation seed n ≡ₚ py_range n) ->
  0 <= seed < 2 ^ 32 ->
  Z.of_nat n < 2 ^ 53 ->
  (0 < vp)%Q -> (vp < 1)%Q -> (0 <= tp)%Q -> (tp < 1)%Q -> (vp + tp < 1)%Q ->
  exists train val test,
    random_split np_permutation n seed vp tp = Ok (train, val, test)
    /\ np_permutation seed n = train ++ val ++ test
    /\ Z.of_nat (length val) = py_int (fl (py_float (inject_Z (Z.of_nat n)) * vp))
    /\ Z.of_nat (length test) = py_int (fl (py_float (inject_Z (Z.of_nat n)) * tp))
    /\ Qfloor (inject_Z (Z.of_nat n) * vp) <= Z.of_nat (length val)
         <= Qfloor (inject_Z (Z.of_nat n) * vp) + 1
    /\ Qfloor (inject_Z (Z.of_nat n) * tp) <= Z.of_nat (length test)
         <= Qfloor (inject_Z (Z.of_nat n) * tp) + 1
    /\ Z.of_nat (length train)
       = Z.of_nat n - Z.of_nat (length val) - Z.of_nat (length test)
    /\ (length train + length val + length test = n)%nat
    /\ (forall i, i ∈ train -> i ∈ val -> False)
    /\ (forall i, i ∈ val -> i ∈ test -> False)
    /\ (forall i, i ∈ train -> i ∈ test -> False)
    /\ NoDup (train ++ val ++ test)
    /\ (forall i, i ∈ train ++ val ++ test <-> i ∈ py_range n).
Proof.
  intros Hperm [Hs0 Hs1] Hn Hv0 Hv1 Ht0 Ht1 Hsum.
  unfold random_split, np_random_seed.
  destruct (Z.leb_spec 0 seed); [|lia]. destruct (Z.ltb_spec seed (2 ^ 32)); [|lia].
  cbn [andb].
  set (indices := np_permutation seed n).
  assert (Hlen : length indices = n).
  { unfold indices. rewrite (Hperm seed n). unfold py_range.
    by rewrite length_map, length_seq. }
  destruct (compute_sizes_bounds n vp tp Hn Hv0 Hv1 Ht0 Ht1 Hsum)
    as (Hval & Htest & Hv & Ht & Htr & Htot).
  assert (Ev : val_size (compute_sizes n vp tp)
               = py_int (fl (py_float (inject_Z (Z.of_nat n)) * vp))) by reflexivity.
  assert (Et : test_size (compute_sizes n vp tp)
               = py_int (fl (py_float (inject_Z (Z.of_nat n)) * tp))) by reflexivity.
  revert Hval Htest Hv Ht Htr Htot Ev Et.
  destruct (compute_sizes n vp tp) as [tr v t]. cbn [train_size val_size test_size].
  intros Hval Htest Hv Ht Htr Htot Ev Et.
  rewrite slice_indices_runs by lia.
  set (train := take (Z.to_nat tr) indices).
  set (val := take (Z.to_nat v) (drop (Z.to_nat tr) indices)).
  set (test := drop (Z.to_nat (tr + v)) indices).
  assert (Hcat : indices = train ++ val ++ test).
  { unfold train, val, test. rewrite Z2Nat.inj_add by lia.
    by rewrite <- drop_drop, !take_drop. }
  assert (Hltr : length train = Z.to_nat tr).
  { unfold train. rewrite length_take. lia. }
  assert (Hlv : length val = Z.to_nat v).
  { unfold val. rewrite length_take, length_drop. lia. }
  assert (Hlt : length test = Z.to_nat t).
  { unfold test. rewrite length_drop. lia. }
  assert (Hnd : NoDup (train ++ val ++ test)).
  { rewrite <- Hcat. unfold indices. rewrite (Hperm seed n). apply NoDup_py_range. }
  exists train, val, test. split; [reflexivity|]. split; [exact Hcat|].
  split; [lia|]. split; [lia|]. split; [lia|]. split; [lia|].
  split; [lia|]. split; [lia|].
  pose proof Hnd as Hnd'.
  apply NoDup_app in Hnd' as (_ & Hd1 & Hnd').
  apply NoDup_app in Hnd' as (_ & Hd2 & _).
  split; [|split; [|split; [|split]]].
  - intros i Hi Hi'. apply (Hd1 i Hi), elem_of_app. by left.
  - intros i Hi Hi'. by apply (Hd2 i Hi).
  - intros i Hi Hi'. apply (Hd1 i Hi), elem_of_app. by right.
  - exact Hnd.
  - intros i. rewrite <- Hcat. unfold indices. by rewrite (Hperm seed n).
Qed.

Lemma random_split_partition_witness :
  exists train val test,
    random_split (fun _ n => reverse (py_range n)) 10 7 (py_float (7 # 10)) (py_float (2 # 10))
      = Ok (train, val, test)
    /\ reverse (py_range 10) = train ++ val ++ test
    /\ Z.of_nat (length val)
       = py_int (fl (py_float (inject_Z (Z.of_nat 10)) * py_float (7 # 10)))
    /\ Z.of_nat (length test)
       = py_int (fl (py_float (inject_Z (Z.of_nat 10)) * py_float (2 # 10)))
    /\ Qfloor (inject_Z (Z.of_nat 10) * py_float (7 # 10)) <= Z.of_nat (length val)
         <= Qfloor (inject_Z (Z.of_nat 10) * py_float (7 # 10)) + 1
    /\ Qfloor (inject_Z (Z.of_nat 10) * py_float (2 # 10)) <= Z.of_nat (length test)
         <= Qfloor (inject_Z (Z.of_nat 10) * py_float (2 # 10)) + 1
    /\ Z.of_nat (length train)
       = Z.of_nat 10 - Z.of_nat (length val) - Z.of_nat (length test)
    /\ (length train + length val + length test = 10)%nat
    /\ (forall i, i ∈ train -> i ∈ val -> False)
    /\ (forall i, i ∈ val -> i ∈ test -> False)
    /\ (forall i, i ∈ train -> i ∈ test -> False)
    /\ NoDup (train ++ val ++ test)
    /\ (forall i, i ∈ train ++ val ++ test <-> i ∈ py_range 10).
Proof.
  apply (random_split_partition (fun _ n => reverse (py_range n)) 7 10
           (py_float (7 # 10)) (py_float (2 # 10))).
  - intros _ n. apply reverse_Permutation.
  - lia.
  - vm_compute. reflexivity.
  - vm_compute. reflexivity.
  - vm_compute. reflexivity.
  - vm_compute. discriminate.
  - vm_compute. reflexivity.
  - vm_compute. reflexivity.
Defined.

(** The lengths are not the floors that C9 names. With ten files and the
    float [0.7], whose value is just below 7/10, the exact product is just
    below 7 and its floor is 6; the float product rounds to [7.0] and the
    val run has seven indices. With a hundred files and the float [0.29],
    the float product is [28.999999999999996] and the val run has 28
    indices, where the floor of 100 times 29/100 is 29. *)
Lemma random_split_val_size_not_floor :
  (exists train val test,
     random_split (fun _ n => py_range n) 10 0 (py_float (7 # 10)) (py_float (2 # 10))
       = Ok (train, val, test)
     /\ length val = 7%nat
     /\ Qfloor (inject_Z 10 * py_float (7 # 10)) = 6)
  /\ (exists train val test,
     random_split (fun _ n => py_range n) 100 0 (py_float (29 # 100)) (py_float (2 # 10))
       = Ok (train, val, test)
     /\ length val = 28%nat
     /\ Qfloor (inject_Z 100 * (29 # 100)) = 29).
Proof.
  split.
  - eexists _, _, _. split; [vm_compute; reflexivity|]. split; vm_compute; reflexivity.
  - eexists _, _, _. split; [vm_compute; reflexivity|]. split; vm_compute; reflexivity.
Qed.

(** ** The split identity *)

Lemma pretty_N_go_ne_brace (x : N) (s s' : string) :
  s <> "{" +:+ s' -> pretty_N_go x s <> "{" +:+ s'.
Proof.
  revert s. induction (N.lt_wf_0 x) as [x _ IH]; intros s Hs.
  assert (x = 0 \/ 0 < x)%N as [->|Hpos] by lia.
  - by rewrite pretty_N_go_0.
  - rewrite pretty_N_go_step by done. apply IH.
    + by apply N.div_lt.
    + unfold pretty_N_char. by repeat case_match.
Qed.

Lemma pretty_Z_ne_brace (z : Z) (s' : string) : pretty z <> "{" +:+ s'.
Proof.
  destruct z as [|p|p]; unfold pretty, pretty_Z; [discriminate| |discriminate].
  unfold pretty, pretty_positive, pretty, pretty_N.
  case_decide; [discriminate|]. by apply pretty_N_go_ne_brace.
Qed.

(** C8. For a seed other than 0 the identity is the one of seed 0 followed
    by the thirteen characters between the quotes of the source,
    [_s{split_seed}]: the seed is not interpolated, and the identity is not
    the one the layout describes. *)
Theorem split_id_seed_suffix_literal (vp tp : Q) (seed : Z) :
  seed <> 0 ->
  split_id vp tp seed = split_id vp tp 0 +:+ "_s{split_seed}"
  /\ split_id vp tp seed <> spec_split_id vp tp seed.
Proof.
  intros Hseed. unfold split_id, spec_split_id.
  destruct (decide (seed = 0)) as [|_]; [done|].
  destruct (decide (0 = 0)) as [_|]; [|done].
  split; [reflexivity|].
  intros H. apply (inj (String.append _)) in H.
  simpl in H. injection H as H. symmetry in H.
  by apply pretty_Z_ne_brace in H.
Qed.

Lemma split_id_seed_suffix_literal_witness :
  split_id (1 # 10) (2 # 10) 42 = split_id (1 # 10) (2 # 10) 0 +:+ "_s{split_seed}"
  /\ split_id (1 # 10) (2 # 10) 42 <> spec_split_id (1 # 10) (2 # 10) 42.
Proof. apply (split_id_seed_suffix_literal (1 # 10) (2 # 10) 42). discriminate. Defined.

Example split_id_10_20_42 :
  split_id (1 # 10) (2 # 10) 42 = "split_v10_t20_s{split_seed}"
  /\ spec_split_id (1 # 10) (2 # 10) 42 = "split_v10_t20_s42"
  /\ split_id (1 # 10) (2 # 10) 0 = "split_v10_t20".
Proof. repeat split; reflexivity. Qed.

(** ** get_classes *)

Lemma py_slice_tail {A} (x : A) (l : list A) : py_slice (x :: l) (Some 1) None = l.
Proof.
  assert (H : py_bound (length (x :: l)) 1 = 1%nat).
  { unfold py_bound. change (1 <? 0) with false. cbv iota. simpl length. lia. }
  unfold py_slice, from_option. rewrite H. simpl.
  rewrite Nat.sub_0_r. by apply take_ge.
Qed.

Lemma py_index_first {A} (x : A) (l : list A) : py_index (x :: l) 0 = Ok x.
Proof.
  unfold py_index. change (0 <? 0) with false. cbv iota.
  destruct (Z.ltb_spec 0 (Z.of_nat (length (x :: l)))) as [_|H]; [reflexivity|].
  simpl length in H. lia.
Qed.

(** C10. With [remove_background] set, on a classes file that holds the
    lines [lines]: with no line, reading the first entry raises IndexError;
    with a first line, the result is the stripped lines, without the first
    one exactly when it strips to [__background__]. *)
Theorem get_classes_remove_background (s : fs) (dataset_path : path)
    (annotation_type : string) (lines : list string) :
  stat s (dataset_path ++ ["lists"; "classes_" +:+ annotation_type +:+ ".txt"])
    = Some (TextFile lines) ->
  (lines = [] ->
     get_classes (Some dataset_path) annotation_type true s = (Raise IndexError, s))
  /\ (forall l rest, lines = l :: rest ->
        get_classes (Some dataset_path) annotation_type true s
        = (Ok (if String.eqb (strip l) "__background__"
               then map strip rest
               else strip l :: map strip rest), s)).
Proof.
  intros Hfile. split.
  - intros ->. unfold get_classes, bind, read_lines. by rewrite Hfile.
  - intros l rest ->. unfold get_classes, bind, read_lines, lift, ret. rewrite Hfile.
    cbn [map]. rewrite py_index_first.
    destruct (String.eqb (strip l) "__background__"); [|reflexivity].
    by rewrite py_slice_tail.
Qed.

Lemma get_classes_remove_background_witness :
  get_classes (Some ["ds"]) "tag" true classes_store = (Ok ["cat"; "dog"], classes_store).
Proof.
  exact (proj2 (get_classes_remove_background classes_store ["ds"] "tag" _ eq_refl)
           _ _ eq_refl).
Defined.

(** ** The orchestration over the store *)

Lemma grown_refl P s : grown P s s.
Proof. intros q. by left. Qed.

Lemma grown_trans P s1 s2 s3 : grown P s1 s2 -> grown P s2 s3 -> grown P s1 s3.
Proof.
  intros H12 H23 q.
  destruct (H12 q) as [E12|(N1 & D2 & HP)], (H23 q) as [E23|(N2 & D3 & HP')].
  - left. congruence.
  - right. repeat split; try done; congruence.
  - right. repeat split; try done; congruence.
  - congruence.
Qed.

Lemma mkdir_level_grown p q s :
  grown (fun q' => q' = q) s (snd (mkdir_level p q tt s)).
Proof.
  unfold mkdir_level. destruct (s !! q) eqn:E.
  - destruct (is_dir s q); apply grown_refl.
  - simpl. intros q'. destruct (decide (q = q')) as [<-|Hne].
    + right. by rewrite lookup_insert_eq.
    + left. by rewrite lookup_insert_ne.
Qed.

Lemma mkdir_levels_grown p qs : forall s,
  grown (fun q => q ∈ qs) s (snd (for_each qs (mkdir_level p) tt s)).
Proof.
  induction qs as [|q qs IH]; intros s; [apply grown_refl|].
  simpl. unfold bind.
  pose proof (mkdir_level_grown p q s) as Hq.
  destruct (mkdir_level p q tt s) as [[[]|e] s1]; simpl in *.
  - eapply grown_trans.
    + intros q'. destruct (Hq q') as [?|(?&?&->)]; [by left|right].
      repeat split; try done. by left.
    + intros q'. destruct (IH s1 q') as [?|(?&?&?)]; [by left|right].
      repeat split; try done. by right.
  - intros q'. destruct (Hq q') as [?|(?&?&->)]; [by left|right].
    repeat split; try done. by left.
Qed.

(** [mkdir(parents=True, exist_ok=True)] only adds directories, at
    prefixes of its path. *)
Lemma mkdir_parents_grown p s :
  grown (fun q => q `prefix_of` p) s (snd (mkdir_parents p s)).
Proof.
  unfold mkdir_parents. intros q.
  destruct (mkdir_levels_grown p (map (fun n => take n p) (seq 1 (length p))) s q)
    as [?|(?&?&Hq)]; [by left|right].
  repeat split; try done.
  apply list_elem_of_In, in_map_iff in Hq as (n & <- & _). apply prefix_take.
Qed.

Lemma grown_realpath P s s' fuel : forall q q' x,
  grown P s s' -> realpath fuel s q = Some q' -> s !! q' = Some x ->
  realpath fuel s' q = Some q'.
Proof.
  induction fuel as [|fuel IH]; intros q q' x Hg Hr Hx; simpl in *.
  - destruct (s !! q) as [nd|] eqn:E.
    + destruct (Hg q) as [->|(? & _)]; [|congruence]. by rewrite E.
    + injection Hr as <-. congruence.
  - destruct (s !! q) as [nd|] eqn:E.
    + destruct (Hg q) as [->|(? & _)]; [|congruence]. rewrite E.
      destruct nd; try done. by eapply IH.
    + injection Hr as <-. congruence.
Qed.

(** What exists stays what it is when directories are added. *)
Lemma grown_stat P s s' q x : grown P s s' -> stat s q = Some x -> stat s' q = Some x.
Proof.
  intros Hg. unfold stat. destruct q as [|c q]; [done|].
  destruct (realpath 40 s (c :: q)) as [q'|] eqn:Hr; [|done].
  intros Hx. rewrite (grown_realpath P s s' 40 _ q' x Hg Hr Hx).
  destruct (Hg q') as [->|(? & _)]; [done|congruence].
Qed.

Lemma Qltb_lt (x y : Q) : Qltb x y = true <-> (x < y)%Q.
Proof.
  unfold Qltb. rewrite negb_true_iff. split.
  - intros H. apply Qnot_le_lt. intros Hle. apply Qle_bool_iff in Hle. congruence.
  - intros H. destruct (Qle_bool y x) eqn:E; [|done].
    apply Qle_bool_iff in E. by apply Qlt_not_le in H.
Qed.

(** The checks reject what [invalid_config] describes, with ValueError. *)
Lemma validate_invalid vp tp seed :
  invalid_config vp tp seed -> validate vp tp seed = Raise ValueError.
Proof.
  unfold invalid_config, validate. intros H.
  destruct vp as [vp|]; [|done].
  destruct (Qltb 0 vp && Qltb vp 1) eqn:Ev; [|done]. simpl.
  destruct tp as [tp|]; [|done].
  destruct (Qle_bool 0 tp && Qltb tp 1) eqn:Et; [|done]. simpl.
  destruct (Qltb (fl (vp + tp)) 1) eqn:Es; [|done]. simpl.
  destruct seed as [seed|]; [|done]. exfalso.
  apply andb_true_iff in Ev as [Ev0 Ev1]. apply andb_true_iff in Et as [Et0 Et1].
  apply Qltb_lt in Ev0, Ev1, Et1, Es. apply Qle_bool_iff in Et0. apply fl_lt_1 in Es.
  destruct H as [H|[H|H]]; apply H; done.
Qed.

(** C7, as the code has it. On an invalid configuration, with the
    annotations directory in place, [split_dataset] fails: with ValueError
    once [lists_path.mkdir(parents=True, exist_ok=True)] has run without
    error. The store it leaves is the one that [mkdir] leaves: directories
    may have been added on the way to the lists directory, and nothing else
    is created or changed. *)
Theorem split_dataset_invalid_config (np_permutation : Z -> nat -> list Z)
    (np_coins : Z -> nat -> nat -> bool)
    (tts : list Z -> list string -> Q -> Z -> list string -> result split_result)
    (dataset_path : path) (vp tp : option Q) (force_resplit : bool) (seed : option Z)
    (make_default_split : bool) (s : fs) :
  invalid_config vp tp seed ->
  is_Some (stat s (dataset_path ++ ["annotations"])) ->
  let lists_path := dataset_path ++ ["lists"] in
  exists e,
    split_dataset np_permutation np_coins tts (Some dataset_path) vp tp force_resplit
      seed make_default_split s
    = (Raise e, snd (mkdir_parents lists_path s))
    /\ (fst (mkdir_parents lists_path s) = Ok tt -> e = ValueError)
    /\ grown (fun q => q `prefix_of` lists_path) s (snd (mkdir_parents lists_path s)).
Proof.
  intros Hinv Hann lists_path.
  unfold split_dataset, bind, path_exists, glob_json, lift.
  rewrite (bool_decide_eq_true_2 _ Hann). change (negb true) with false. cbv beta iota.
  rewrite (validate_invalid _ _ _ Hinv).
  fold lists_path.
  pose proof (mkdir_parents_grown lists_path s) as Hg.
  destruct (mkdir_parents lists_path s) as [[[]|e] s1]; simpl snd in *; simpl fst.
  - exists ValueError. split; [reflexivity|]. split; [done|exact Hg].
  - exists e. split; [reflexivity|]. split; [discriminate|exact Hg].
Qed.

Lemma split_dataset_invalid_config_witness :
  exists e,
    split_dataset (fun _ n => py_range n) (fun _ _ _ => true) tail_split (Some ["ds"])
      (Some (3 # 2)) (Some (2 # 10)) false (Some 0) true fresh_store
    = (Raise e, snd (mkdir_parents (["ds"] ++ ["lists"]) fresh_store))
    /\ (fst (mkdir_parents (["ds"] ++ ["lists"]) fresh_store) = Ok tt -> e = ValueError)
    /\ grown (fun q => q `prefix_of` ["ds"] ++ ["lists"]) fresh_store
         (snd (mkdir_parents (["ds"] ++ ["lists"]) fresh_store)).
Proof.
  apply (split_dataset_invalid_config (fun _ n => py_range n) (fun _ _ _ => true)
           tail_split ["ds"] (Some (3 # 2)) (Some (2 # 10)) false (Some 0) true fresh_store).
  - left. intros [_ H]. discriminate H.
  - vm_compute. eauto.
Defined.

(** C7, the claim refuted: the validation fraction is absent, the call
    fails with ValueError, and the lists directory, which the store did not
    have, has been created. *)
Lemma split_dataset_mkdir_before_validation :
  let r := split_dataset (fun _ n => py_range n) (fun _ _ _ => true) tail_split
             (Some ["ds"]) None (Some (2 # 10)) false (Some 0) true fresh_store in
  fresh_store !! ["ds"; "lists"] = None
  /\ fst r = Raise ValueError
  /\ snd r !! ["ds"; "lists"] = Some Dir.
Proof. vm_compute. done. Qed.

Lemma split_id_not_split (vp tp : Q) (seed : Z) : split_id vp tp seed <> "split".
Proof.
  unfold split_id. destruct (decide (seed = 0)); cbn [String.append]; discriminate.
Qed.

(** The default-split link is the only path [default_split] touches. *)
Lemma default_split_frame (lists_path : path) (id : string) (mds : bool) (s : fs) (q : path) :
  q <> lists_path ++ ["split"] ->
  snd (default_split lists_path id mds s) !! q = s !! q.
Proof.
  intros Hq. unfold default_split, bind, path_exists, unlink, symlink_to, ret.
  destruct (mds || negb _); [|done].
  destruct (bool_decide _); simpl.
  - destruct (s !! (lists_path ++ ["split"])) as [[]|] eqn:E; simpl; try done;
      rewrite lookup_delete_eq;
      destruct (is_dir _ _); simpl; rewrite ?lookup_insert_ne by done;
      by rewrite lookup_delete_ne.
  - destruct (s !! (lists_path ++ ["split"])) as [nd|] eqn:E; simpl; [done|].
    destruct (is_dir _ _); simpl; by rewrite ?lookup_insert_ne.
Qed.

(** C6. With the split directory of the configuration in place,
    [split_dataset] called with [force_resplit] set leaves every path at or
    under that directory as it was: the earlier split is neither discarded
    nor made anew. *)
Theorem split_dataset_ignores_force_resplit (np_permutation : Z -> nat -> list Z)
    (np_coins : Z -> nat -> nat -> bool)
    (tts : list Z -> list string -> Q -> Z -> list string -> result split_result)
    (dataset_path : path) (val_percentage test_percentage : option Q)
    (split_seed : option Z) (make_default_split : bool) (s : fs)
    (vp tp : Q) (seed : Z) :
  validate val_percentage test_percentage split_seed = Ok (vp, tp, seed) ->
  is_Some (stat s (dataset_path ++ ["lists"] ++ [split_id vp tp seed])) ->
  forall p, (dataset_path ++ ["lists"] ++ [split_id vp tp seed]) `prefix_of` p ->
    snd (split_dataset np_permutation np_coins tts (Some dataset_path) val_percentage
           test_percentage true split_seed make_default_split s) !! p
    = s !! p.
Proof.
  intros Hval [x Hx] p [k ->].
  set (lists_path := dataset_path ++ ["lists"]).
  assert (Hnp : ~ ((dataset_path ++ ["lists"] ++ [split_id vp tp seed]) ++ k)
                  `prefix_of` lists_path).
  { intros H. apply prefix_length in H. unfold lists_path in H.
    rewrite !length_app in H. simpl in H. lia. }
  assert (Hns : (dataset_path ++ ["lists"] ++ [split_id vp tp seed]) ++ k
                <> lists_path ++ ["split"]).
  { unfold lists_path. rewrite (app_assoc dataset_path), <- (app_assoc _ _ k).
    intros H. apply app_inv_head in H. injection H as H _.
    by apply split_id_not_split in H. }
  unfold split_dataset, bind, path_exists, glob_json, lift.
  destruct (bool_decide (is_Some (stat s (dataset_path ++ ["annotations"])))); [|done].
  change (negb true) with false. cbv beta iota. rewrite Hval. fold lists_path.
  pose proof (mkdir_parents_grown lists_path s) as Hg.
  destruct (mkdir_parents lists_path s) as [[[]|e] s1]; simpl snd in Hg; cbn [fst snd].
  - rewrite bool_decide_eq_true_2.
    2:{ exists x. apply (grown_stat _ s s1 _ x Hg).
        unfold lists_path. by rewrite <- app_assoc. }
    change (negb true) with false. cbv beta iota. unfold ret at 1.
    rewrite (surjective_pairing (default_split _ _ _ s1)).
    destruct (default_split lists_path (split_id vp tp seed) make_default_split s1).1;
      cbn [snd]; unfold ret; cbn [snd];
      rewrite default_split_frame by done;
      destruct (Hg ((dataset_path ++ ["lists"] ++ [split_id vp tp seed]) ++ k))
        as [?|(_ & _ & ?)]; done.
  - destruct (Hg ((dataset_path ++ ["lists"] ++ [split_id vp tp seed]) ++ k))
      as [?|(_ & _ & ?)]; done.
Qed.

Lemma split_dataset_ignores_force_resplit_witness :
  snd (split_dataset (fun _ n => py_range n) (fun _ _ _ => true) tail_split (Some ["ds"])
         (Some (1 # 10)) (Some (2 # 10)) true (Some 0) true stale_store)
    !! ["ds"; "lists"; "split_v10_t20"; "random_train.txt"]
  = stale_store !! ["ds"; "lists"; "split_v10_t20"; "random_train.txt"].
Proof.
  apply (split_dataset_ignores_force_resplit (fun _ n => py_range n) (fun _ _ _ => true)
           tail_split ["ds"] (Some (1 # 10)) (Some (2 # 10)) (Some 0) true stale_store
           (1 # 10) (2 # 10) 0).
  - reflexivity.
  - vm_compute. eauto.
  - exists ["random_train.txt"]. reflexivity.
Defined.

(** The store of the example keeps the list written earlier, and the run
    without [force_resplit] gives the same result and the same store. *)
Example split_dataset_stale_store :
  let run force :=
    split_dataset (fun _ n => py_range n) (fun _ _ _ => true) tail_split (Some ["ds"])
      (Some (1 # 10)) (Some (2 # 10)) force (Some 0) true stale_store in
  snd (run true) !! ["ds"; "lists"; "split_v10_t20"; "random_train.txt"]
    = Some (TextFile ["old" +:+ newline])
  /\ snd (run true) !! ["ds"; "lists"; "split_v10_t20"; "random_val.txt"] = None
  /\ run true = run false.
Proof.
  split; [vm_compute; reflexivity|]. split; [vm_compute; reflexivity|]. reflexivity.
Qed.


(** * Further properties of the module *)

(** ** The repair, on inputs that need none *)

Lemma repair_loop_noop coin todo (st : arrays) (n : nat) :
  (forall v, v ∈ todo -> v ∈ X_b st -> False) ->
  for_each todo (repair_step coin) st n = (Ok st, n).
Proof.
  induction todo as [|a todo IH]; intros Hdisj; [reflexivity|].
  simpl. unfold bind, repair_step.
  destruct (np_contains a (X_b st)) eqn:Hin.
  - exfalso. apply (Hdisj a); [by left | by apply np_contains_spec].
  - unfold ret at 1. apply IH. intros v Hv. apply Hdisj. by right.
Qed.

(** Arrays that share no value come back as they are, whatever the
    lengths of the label arrays, and no coin is drawn. *)
Theorem repair_disjoint_noop coin Xa Xb ya yb n :
  (forall v, v ∈ Xa -> v ∈ Xb -> False) ->
  remove_cross_contamination coin Xa Xb ya yb n = (Ok (Arrays Xa Xb ya yb), n).
Proof. intros Hdisj. by apply repair_loop_noop. Qed.

Lemma repair_disjoint_noop_witness :
  remove_cross_contamination (fun _ => true) [1; 2; 2] [3; 4] ["cat"; "dog"; "owl"] ["fox"] 5%nat
  = (Ok (Arrays [1; 2; 2] [3; 4] ["cat"; "dog"; "owl"] ["fox"]), 5%nat).
Proof.
  apply repair_disjoint_noop. intros v Ha Hb.
  repeat (apply elem_of_cons in Ha as [->|Ha];
          [repeat (apply elem_of_cons in Hb as [Hb|Hb]; [discriminate|]);
           by apply elem_of_nil in Hb|]).
  by apply elem_of_nil in Ha.
Defined.

(** The repair is idempotent: run again on its own result, with any coins,
    it returns that result and draws nothing. *)
Theorem repair_idempotent coin coin' Xa Xb ya yb n :
  length Xa = length ya -> length Xb = length yb ->
  exists r n',
    remove_cross_contamination coin Xa Xb ya yb n = (Ok r, n')
    /\ forall m,
         remove_cross_contamination coin' (X_a r) (X_b r) (y_a r) (y_b r) m = (Ok r, m).
Proof.
  intros Ha Hb.
  destruct (repair_loop coin Xa Xa Xb ya yb n Ha Hb) as (fa & fb & n' & Hrun & Hdisj).
  exists (filtered fa fb Xa Xb ya yb), n'. split; [exact Hrun|].
  intros m. apply repair_loop_noop. simpl. intros v Hva Hvb.
  apply (Hdisj v); [|done..]. by apply elem_of_filter_bool in Hva as [Hva _].
Qed.

Lemma repair_idempotent_witness :
  exists r n',
    remove_cross_contamination (fun k => Nat.even k) [3; 1; 3; 2] [2; 3; 4]
      ["cat"; "dog"; "owl"; "cat"] ["dog"; "fox"; "owl"] 0%nat = (Ok r, n')
    /\ forall m,
         remove_cross_contamination (fun _ => false) (X_a r) (X_b r) (y_a r) (y_b r) m
         = (Ok r, m).
Proof. apply repair_idempotent; reflexivity. Defined.

(** ** The checks of split_dataset *)

(** The checks accept a configuration exactly when both fractions and the
    seed are given, the validation fraction is strictly between 0 and 1,
    the test fraction is in [0,1) and the float sum of the two, which is
    rounded, is below [1.0]. What they accept has an exact sum below 1; the
    converse fails: the floats [0.7] and [0.3] have an exact sum below 1 and
    a float sum of [1.0], and are rejected. Every rejection is a
    ValueError. *)
Theorem validate_accepts_iff (val_percentage test_percentage : option Q)
    (split_seed : option Z) (vp tp : Q) (seed : Z) :
  (validate val_percentage test_percentage split_seed = Ok (vp, tp, seed)
   <-> val_percentage = Some vp /\ test_percentage = Some tp /\ split_seed = Some seed
       /\ (0 < vp)%Q /\ (vp < 1)%Q /\ (0 <= tp)%Q /\ (tp < 1)%Q
       /\ (fl (vp + tp) < 1)%Q)
  /\ (validate val_percentage test_percentage split_seed = Ok (vp, tp, seed) ->
      (vp + tp < 1)%Q)
  /\ ((py_float (7 # 10) + py_float (3 # 10) < 1)%Q
      /\ validate (Some (py_float (7 # 10))) (Some (py_float (3 # 10))) split_seed
         = Raise ValueError)
  /\ (forall e, validate val_percentage test_percentage split_seed = Raise e ->
        e = ValueError).
Proof.
  split; [|split; [|split; [split; [vm_compute; reflexivity | reflexivity]|]]].
  - unfold validate.
    destruct val_percentage as [v|]; [|split; [done|by intros [? _]]].
    destruct (Qltb 0 v && Qltb v 1) eqn:Ev; simpl.
    2:{ split; [done|].
        intros ([= ->] & _ & _ & H0 & H1 & _).
        apply Qltb_lt in H0, H1. rewrite H0, H1 in Ev. done. }
    apply andb_true_iff in Ev as [Ev0 Ev1]. apply Qltb_lt in Ev0, Ev1.
    destruct test_percentage as [t|]; [|split; [done|by intros (_ & ? & _)]].
    destruct (Qle_bool 0 t && Qltb t 1) eqn:Et; simpl.
    2:{ split; [done|].
        intros (_ & [= ->] & _ & _ & _ & H0 & H1 & _).
        apply Qle_bool_iff in H0. apply Qltb_lt in H1. rewrite H0, H1 in Et. done. }
    apply andb_true_iff in Et as [Et0 Et1]. apply Qle_bool_iff in Et0. apply Qltb_lt in Et1.
    destruct (Qltb (fl (v + t)) 1) eqn:Es; simpl.
    2:{ split; [done|].
        intros ([= ->] & [= ->] & _ & _ & _ & _ & _ & H).
        apply Qltb_lt in H. rewrite H in Es. done. }
    apply Qltb_lt in Es.
    destruct split_seed as [sd|]; [|split; [done|by intros (_ & _ & ? & _)]].
    split.
    + intros [= -> -> ->]. done.
    + intros ([= ->] & [= ->] & [= ->] & _). done.
  - unfold validate.
    destruct val_percentage as [v|]; [|done].
    destruct (negb (Qltb 0 v && Qltb v 1)); [done|].
    destruct test_percentage as [t|]; [|done].
    destruct (negb (Qle_bool 0 t && Qltb t 1)); [done|].
    destruct (Qltb (fl (v + t)) 1) eqn:Es; [|done]. simpl.
    destruct split_seed as [sd|]; [|done].
    intros [= -> -> ->]. apply fl_lt_1. by apply Qltb_lt.
  - unfold validate. intros e.
    destruct val_percentage as [v|]; [|by intros [= <-]].
    destruct (negb (Qltb 0 v && Qltb v 1)); [by intros [= <-]|].
    destruct test_percentage as [t|]; [|by intros [= <-]].
    destruct (negb (Qle_bool 0 t && Qltb t 1)); [by intros [= <-]|].
    destruct (negb (Qltb (fl (v + t)) 1)); [by intros [= <-]|].
    destruct split_seed as [sd|]; [done|by intros [= <-]].
Qed.

(** ** Strings: reversal and stripping *)

Lemma string_app_cons (x : ascii) (a b : string) : String x a +:+ b = String x (a +:+ b).
Proof. reflexivity. Qed.

Lemma string_app_nil_l (b : string) : "" +:+ b = b.
Proof. reflexivity. Qed.

Lemma string_app_assoc (a b c : string) : (a +:+ b) +:+ c = a +:+ (b +:+ c).
Proof.
  induction a as [|x a IH]; [by rewrite !string_app_nil_l|].
  by rewrite !string_app_cons, IH.
Qed.

Lemma string_app_nil_r (a : string) : a +:+ "" = a.
Proof. induction a as [|x a IH]; [done|]. by rewrite string_app_cons, IH. Qed.

Lemma rev_app_spec (s acc : string) : String.rev_app s acc = String.rev s +:+ acc.
Proof.
  revert acc. unfold String.rev.
  induction s as [|x s IH]; intros acc; cbn [String.rev_app]; [done|].
  rewrite (IH (String x "")), IH, string_app_assoc. done.
Qed.

Lemma string_rev_cons (x : ascii) (s : string) :
  String.rev (String x s) = String.rev s +:+ String x "".
Proof. unfold String.rev at 1. cbn [String.rev_app]. apply rev_app_spec. Qed.

Lemma string_rev_app (a b : string) : String.rev (a +:+ b) = String.rev b +:+ String.rev a.
Proof.
  induction a as [|x a IH].
  - change (String.rev "") with "". by rewrite string_app_nil_l, string_app_nil_r.
  - by rewrite string_app_cons, !string_rev_cons, IH, string_app_assoc.
Qed.

Lemma string_rev_involutive (s : string) : String.rev (String.rev s) = s.
Proof.
  induction s as [|x s IH]; [done|].
  rewrite string_rev_cons, string_rev_app, IH. done.
Qed.

Lemma lstrip_idem (s : string) : lstrip (lstrip s) = lstrip s.
Proof.
  induction s as [|x s IH]; [done|]. simpl.
  destruct (is_space x) eqn:E; [done|]. simpl. by rewrite E.
Qed.

(** What [lstrip] returns is empty or starts with a character that is not
    white space. *)
Lemma lstrip_head (s : string) :
  lstrip s = "" \/ exists x t, lstrip s = String x t /\ is_space x = false.
Proof.
  induction s as [|x s IH]; [by left|]. simpl.
  destruct (is_space x) eqn:E; [done|]. right. by exists x, s.
Qed.

Lemma lstrip_snoc (u : string) (x : ascii) :
  is_space x = false -> exists v, lstrip (u +:+ String x "") = v +:+ String x "".
Proof.
  intros Hx. induction u as [|y u IH].
  - exists "". rewrite !string_app_nil_l. simpl. by rewrite Hx.
  - rewrite string_app_cons. simpl. destruct (is_space y); [done|]. by exists (String y u).
Qed.

Lemma rstrip_idem (s : string) : rstrip (rstrip s) = rstrip s.
Proof. unfold rstrip. by rewrite string_rev_involutive, lstrip_idem. Qed.

(** [rstrip] keeps a first character that is not white space. *)
Lemma rstrip_head (x : ascii) (t : string) :
  is_space x = false -> exists w, rstrip (String x t) = String x w.
Proof.
  intros Hx. unfold rstrip. rewrite string_rev_cons.
  destruct (lstrip_snoc (String.rev t) x Hx) as [v ->].
  rewrite string_rev_app. by exists (String.rev v).
Qed.

(** Stripping twice is stripping once. *)
Lemma strip_idem (s : string) : strip (strip s) = strip s.
Proof.
  unfold strip. destruct (lstrip_head s) as [->|(x & t & -> & Hx)]; [done|].
  destruct (rstrip_head x t Hx) as [w Hw].
  assert (Hl : lstrip (rstrip (String x t)) = rstrip (String x t)).
  { rewrite Hw. simpl. by rewrite Hx. }
  by rewrite Hl, rstrip_idem.
Qed.

(** ** get_classes: what is returned *)

Lemma py_slice_subseteq {A} (l : list A) (lo hi : option Z) (x : A) :
  x ∈ py_slice l lo hi -> x ∈ l.
Proof.
  unfold py_slice. intros H.
  apply elem_of_take in H as (i & H & _). rewrite lookup_drop in H.
  by eapply list_elem_of_lookup_2.
Qed.

(** Whatever the flag, the names [get_classes] returns are stripped lines
    of the classes file: each is a fixed point of [strip], so none has
    white space at either end, and the store is left as it was. *)
Theorem get_classes_trimmed (s s' : fs) (dataset_path : path)
    (annotation_type : string) (remove_background : bool) (classes : list string) :
  get_classes (Some dataset_path) annotation_type remove_background s = (Ok classes, s') ->
  s' = s
  /\ exists lines,
       stat s (dataset_path ++ ["lists"; "classes_" +:+ annotation_type +:+ ".txt"])
         = Some (TextFile lines)
       /\ forall c, c ∈ classes -> c ∈ map strip lines /\ strip c = c.
Proof.
  unfold get_classes, bind at 1, read_lines.
  destruct (stat s _) as [[| lines | |]|] eqn:Hstat; try discriminate.
  assert (Hfix : forall c, c ∈ map strip lines -> strip c = c).
  { intros c Hc. apply list_elem_of_In, in_map_iff in Hc as (l & <- & _).
    apply strip_idem. }
  intros Hrun. cut (s' = s /\ forall c, c ∈ classes -> c ∈ map strip lines).
  { intros [-> Hsub]. split; [done|]. exists lines. split; [done|].
    intros c Hc. split; [by apply Hsub | by apply Hfix, Hsub]. }
  destruct remove_background.
  - unfold bind, lift in Hrun.
    destruct (py_index (map strip lines) 0) as [first|e]; [|discriminate].
    destruct (String.eqb first "__background__"); unfold ret in Hrun;
      injection Hrun as <- <-; split; try done.
    intros c Hc. by eapply py_slice_subseteq.
  - unfold ret in Hrun. by injection Hrun as <- <-.
Qed.

Lemma get_classes_trimmed_witness :
  classes_store = classes_store
  /\ exists lines,
       stat classes_store (["ds"] ++ ["lists"; "classes_" +:+ "tag" +:+ ".txt"])
         = Some (TextFile lines)
       /\ forall c, c ∈ ["cat"; "dog"] -> c ∈ map strip lines /\ strip c = c.
Proof.
  apply (get_classes_trimmed classes_store classes_store ["ds"] "tag" true ["cat"; "dog"]).
  vm_compute. reflexivity.
Defined.

(** ** _write_to_file *)

Lemma for_each_app {S A B} (xs ys : list A) (body : A -> B -> M S B) (acc : B) (s : S) :
  for_each (xs ++ ys) body acc s = bind (for_each xs body acc) (for_each ys body) s.
Proof.
  revert acc s. induction xs as [|x xs IH]; intros acc s; simpl; [done|].
  unfold bind. destruct (body x acc s) as [[acc'|e] s1]; [|done]. apply IH.
Qed.

Lemma py_index_in_range {A} (l : list A) (i : Z) :
  - Z.of_nat (length l) <= i < Z.of_nat (length l) -> exists x, py_index l i = Ok x.
Proof.
  intros Hi. unfold py_index, np_get.
  set (j := if i <? 0 then i + Z.of_nat (length l) else i).
  assert (Hj : 0 <= j < Z.of_nat (length l)).
  { unfold j. destruct (Z.ltb_spec i 0); lia. }
  destruct (Z.leb_spec 0 j); [|lia]. destruct (Z.ltb_spec j (Z.of_nat (length l))); [|lia].
  simpl. destruct (lookup_lt_is_Some_2 l (Z.to_nat j)) as [x ->]; [lia|]. by exists x.
Qed.

Lemma py_index_out_of_range {A} (l : list A) (i : Z) :
  ~ (- Z.of_nat (length l) <= i < Z.of_nat (length l)) -> py_index l i = Raise IndexError.
Proof.
  intros Hi. unfold py_index.
  set (j := if i <? 0 then i + Z.of_nat (length l) else i).
  assert (Hj : ~ (0 <= j < Z.of_nat (length l))).
  { unfold j. destruct (Z.ltb_spec i 0); lia. }
  destruct (Z.leb_spec 0 j); [|done].
  destruct (Z.ltb_spec j (Z.of_nat (length l))); [lia|done].
Qed.

(** The loop of [_write_to_file] over indices in range: one line per
    index, the stem of the file at that index and a newline, appended in
    order. *)
Lemma write_stems_loop (annotation_files : list path) (f : path) (idx : list Z) :
  forall (s : fs) (written : list string),
  s !! f = Some (TextFile written) ->
  (forall i, i ∈ idx ->
     - Z.of_nat (length annotation_files) <= i < Z.of_nat (length annotation_files)) ->
  exists lines,
    for_each idx (write_stem annotation_files f) tt s
      = (Ok tt, <[f := TextFile (written ++ lines)]> s)
    /\ Forall2 (fun i line => exists file,
                  py_index annotation_files i = Ok file /\ line = stem file +:+ newline)
         idx lines.
Proof.
  induction idx as [|i idx IH]; intros s written Hf Hin.
  - exists []. split; [|constructor]. simpl. unfold ret.
    by rewrite app_nil_r, insert_id.
  - destruct (py_index_in_range annotation_files i) as [file Hfile]; [apply Hin; by left|].
    destruct (IH (<[f := TextFile (written ++ [stem file +:+ newline])]> s)
                (written ++ [stem file +:+ newline]))
      as (lines & Hrun & Hall).
    { by rewrite lookup_insert_eq. }
    { intros i' Hi'. apply Hin. by right. }
    exists ((stem file +:+ newline) :: lines). split.
    + assert (Hstep : write_stem annotation_files f i tt s
                      = (Ok tt, <[f := TextFile (written ++ [stem file +:+ newline])]> s)).
      { unfold write_stem, bind, lift, write. by rewrite Hfile, Hf. }
      simpl for_each. unfold bind at 1. rewrite Hstep, Hrun.
      by rewrite insert_insert_eq, <- app_assoc.
    + constructor; [by exists file | done].
Qed.

(** When the target can be opened for writing and every index is in
    range, [_write_to_file] returns and leaves a file with exactly one line
    per index, in the order of the indices: the stem of the annotation file
    at that index, then a newline. Nothing else in the store changes. *)
Theorem _write_to_file_lines (annotation_files : list path) (file_path f : path)
    (split_idx : list Z) (s : fs) :
  realpath 40 s file_path = Some f ->
  is_dir s (parent f) = true ->
  s !! f <> Some Dir ->
  (forall i, i ∈ split_idx ->
     - Z.of_nat (length annotation_files) <= i < Z.of_nat (length annotation_files)) ->
  exists lines,
    _write_to_file annotation_files file_path (Some split_idx) s
      = (Ok tt, <[f := TextFile lines]> s)
    /\ Forall2 (fun i line => exists file,
                  py_index annotation_files i = Ok file /\ line = stem file +:+ newline)
         split_idx lines.
Proof.
  intros Hreal Hdir Hnd Hin.
  destruct (write_stems_loop annotation_files f split_idx (<[f := TextFile []]> s) [])
    as (lines & Hrun & Hall); [by rewrite lookup_insert_eq | done |].
  exists lines. split; [|done].
  unfold _write_to_file, bind, open_w. rewrite Hreal, Hdir. simpl negb. cbv iota.
  assert (Hopen : match s !! f with
                  | Some Dir => (Raise IsADirectoryError, s)
                  | _ => (Ok f, <[f := TextFile []]> s)
                  end = (Ok f, <[f := TextFile []]> s)).
  { destruct (s !! f) as [[]|]; done. }
  rewrite Hopen, Hrun. by rewrite insert_insert_eq.
Qed.

Lemma _write_to_file_lines_witness :
  exists lines,
    _write_to_file [["ds"; "annotations"; "b.json"]; ["ds"; "annotations"; "a.json"]]
      ["ds"; "out.txt"] (Some [1; -1; 0]) fresh_store
      = (Ok tt, <[ ["ds"; "out.txt"] := TextFile lines ]> fresh_store)
    /\ Forall2 (fun i line => exists file,
                  py_index [["ds"; "annotations"; "b.json"]; ["ds"; "annotations"; "a.json"]] i
                    = Ok file /\ line = stem file +:+ newline)
         [1; -1; 0] lines.
Proof.
  apply _write_to_file_lines.
  - reflexivity.
  - reflexivity.
  - discriminate.
  - intros i Hi. simpl.
    repeat (apply elem_of_cons in Hi as [->|Hi]; [lia|]). by apply elem_of_nil in Hi.
Defined.

(** At the first index out of range [_write_to_file] raises IndexError;
    the file then exists and holds the lines of the indices before it. *)
Theorem _write_to_file_out_of_range (annotation_files : list path) (file_path f : path)
    (before after : list Z) (i : Z) (s : fs) :
  realpath 40 s file_path = Some f ->
  is_dir s (parent f) = true ->
  s !! f <> Some Dir ->
  (forall k, k ∈ before ->
     - Z.of_nat (length annotation_files) <= k < Z.of_nat (length annotation_files)) ->
  ~ (- Z.of_nat (length annotation_files) <= i < Z.of_nat (length annotation_files)) ->
  exists lines,
    _write_to_file annotation_files file_path (Some (before ++ i :: after)) s
      = (Raise IndexError, <[f := TextFile lines]> s)
    /\ Forall2 (fun k line => exists file,
                  py_index annotation_files k = Ok file /\ line = stem file +:+ newline)
         before lines.
Proof.
  intros Hreal Hdir Hnd Hin Hout.
  destruct (write_stems_loop annotation_files f before (<[f := TextFile []]> s) [])
    as (lines & Hrun & Hall); [by rewrite lookup_insert_eq | done |].
  exists lines. split; [|done].
  unfold _write_to_file, bind at 1, open_w. rewrite Hreal, Hdir. simpl negb. cbv iota.
  assert (Hopen : match s !! f with
                  | Some Dir => (Raise IsADirectoryError, s)
                  | _ => (Ok f, <[f := TextFile []]> s)
                  end = (Ok f, <[f := TextFile []]> s)).
  { destruct (s !! f) as [[]|]; done. }
  rewrite Hopen, for_each_app. unfold bind at 1. rewrite Hrun.
  simpl. unfold bind, write_stem, bind, lift.
  rewrite (py_index_out_of_range _ _ Hout). by rewrite insert_insert_eq.
Qed.

Lemma _write_to_file_out_of_range_witness :
  exists lines,
    _write_to_file [["ds"; "annotations"; "b.json"]; ["ds"; "annotations"; "a.json"]]
      ["ds"; "out.txt"] (Some ([1; 0] ++ 2 :: [0])) fresh_store
      = (Raise IndexError, <[ ["ds"; "out.txt"] := TextFile lines ]> fresh_store)
    /\ Forall2 (fun k line => exists file,
                  py_index [["ds"; "annotations"; "b.json"]; ["ds"; "annotations"; "a.json"]] k
                    = Ok file /\ line = stem file +:+ newline)
         [1; 0] lines.
Proof.
  apply _write_to_file_out_of_range.
  - reflexivity.
  - reflexivity.
  - discriminate.
  - intros k Hk. simpl.
    repeat (apply elem_of_cons in Hk as [->|Hk]; [lia|]). by apply elem_of_nil in Hk.
  - simpl. lia.
Defined.

(** ** The default split link *)

Lemma parent_snoc (p : path) (x : string) : parent (p ++ [x]) = p.
Proof. unfold parent. apply removelast_last. Qed.

(** A dangling link: [exists()] follows the link and answers no, so the
    link is not removed, and making the new one fails. Whether or not a new
    default was asked for, the call raises FileExistsError and leaves the
    store as it was. *)
Theorem default_split_dangling_link (lists_path target : path) (id : string)
    (make_default_split : bool) (s : fs) :
  s !! (lists_path ++ ["split"]) = Some (Symlink target) ->
  stat s (lists_path ++ ["split"]) = None ->
  default_split lists_path id make_default_split s = (Raise FileExistsError, s).
Proof.
  intros Hlink Hstat. unfold default_split, bind, path_exists.
  rewrite bool_decide_eq_false_2 by (rewrite Hstat; by intros [? ?]).
  rewrite orb_true_r.
  rewrite bool_decide_eq_false_2 by (rewrite Hstat; by intros [? ?]).
  unfold ret, symlink_to. by rewrite Hlink.
Qed.

Lemma default_split_dangling_link_witness :
  default_split ["ds"; "lists"] "split_v10_t20" false
    (<[ ["ds"; "lists"; "split"] := Symlink ["ds"; "lists"; "split_v30_t0"] ]> stale_store)
  = (Raise FileExistsError,
     <[ ["ds"; "lists"; "split"] := Symlink ["ds"; "lists"; "split_v30_t0"] ]> stale_store).
Proof.
  apply (default_split_dangling_link ["ds"; "lists"] ["ds"; "lists"; "split_v30_t0"]).
  - reflexivity.
  - reflexivity.
Defined.

(** For a dataset given by an absolute path, with the lists directory in
    place and the link absent, or a link that leads somewhere: asked to make
    the split the default, [default_split] makes [lists/split] a link whose
    target is the path [lists_path / split_id], as it was given, and changes
    nothing else; not asked, it makes the link only when there is none. *)
Theorem default_split_link (lists_path : path) (id : string)
    (make_default_split : bool) (s : fs) :
  s !! lists_path = Some Dir ->
  lists_path <> [] ->
  (s !! (lists_path ++ ["split"]) = None
   \/ exists target x, s !! (lists_path ++ ["split"]) = Some (Symlink target)
                       /\ stat s (lists_path ++ ["split"]) = Some x) ->
  default_split lists_path id make_default_split s
  = (Ok tt,
     if make_default_split || bool_decide (s !! (lists_path ++ ["split"]) = None)
     then <[lists_path ++ ["split"] := Symlink (lists_path ++ [id])]> s
     else s).
Proof.
  intros Hlists Hne Hsplit. unfold default_split, bind, path_exists.
  assert (Hneq : lists_path <> lists_path ++ ["split"]).
  { intros H. apply (f_equal length) in H. rewrite length_app in H. simpl in H. lia. }
  assert (Hdir : forall s', s' !! lists_path = Some Dir -> is_dir s' lists_path = true).
  { intros s' H. unfold is_dir, stat. destruct lists_path as [|c l]; [done|].
    simpl realpath. by rewrite H, H. }
  destruct Hsplit as [Hnone|(target & x & Hlink & Hstat)].
  - assert (Hst : stat s (lists_path ++ ["split"]) = None).
    { unfold stat. destruct (lists_path ++ ["split"]) eqn:E;
        [by destruct lists_path|]. simpl realpath. by rewrite Hnone, Hnone. }
    assert (Hbd : bool_decide (is_Some (stat s (lists_path ++ ["split"]))) = false).
    { apply bool_decide_eq_false_2. rewrite Hst. by intros [? ?]. }
    rewrite Hbd, orb_true_r. cbv beta iota. rewrite Hbd.
    unfold ret, symlink_to.
    rewrite Hnone, parent_snoc, (Hdir s Hlists).
    rewrite (bool_decide_eq_true_2 (None = None)) by done. by rewrite orb_true_r.
  - assert (Hbd : bool_decide (is_Some (stat s (lists_path ++ ["split"]))) = true).
    { apply bool_decide_eq_true_2. rewrite Hstat. by eexists. }
    rewrite (bool_decide_eq_false_2 (s !! (lists_path ++ ["split"]) = None))
      by (by rewrite Hlink).
    rewrite Hbd. simpl negb. rewrite !orb_false_r.
    destruct make_default_split; [|done].
    cbv beta iota. rewrite Hbd.
    unfold unlink, symlink_to. rewrite Hlink, lookup_delete_eq, parent_snoc.
    rewrite Hdir by (by rewrite lookup_delete_ne).
    by rewrite insert_delete_eq.
Qed.

Lemma default_split_link_witness :
  default_split ["ds"; "lists"] "split_v10_t20" true stale_store
  = (Ok tt,
     if true || bool_decide (stale_store !! (["ds"; "lists"] ++ ["split"]) = None)
     then <[ ["ds"; "lists"] ++ ["split"] := Symlink (["ds"; "lists"] ++ ["split_v10_t20"]) ]>
            stale_store
     else stale_store).
Proof.
  apply (default_split_link ["ds"; "lists"] "split_v10_t20" true stale_store).
  - reflexivity.
  - discriminate.
  - left. reflexivity.
Defined.

(** ** extract_classes *)

Section Dict.
Context `{EqDecision K, EqDecision V}.

Lemma in_dict_add (k k' : K) (v v' : V) (d : list (K * list V)) :
  in_dict k' v' (dict_add k v d) <-> (k' = k /\ v' = v) \/ in_dict k' v' d.
Proof.
  unfold in_dict. induction d as [|[k0 vs0] d IH]; simpl.
  - split.
    + intros (vs & Hin & Hv). apply list_elem_of_singleton in Hin as [= -> ->].
      apply list_elem_of_singleton in Hv. by left.
    + intros [[-> ->]|(vs & Hin & _)]; [|by apply elem_of_nil in Hin].
      exists [v]. split; by apply list_elem_of_singleton.
  - destruct (decide (k0 = k)) as [->|Hne].
    + split.
      * intros (vs & Hin & Hv). apply elem_of_cons in Hin as [[= -> ->]|Hin].
        -- destruct (decide (v ∈ vs0)).
           ++ right. exists vs0. split; [by left|done].
           ++ apply elem_of_app in Hv as [Hv|Hv].
              ** right. exists vs0. split; [by left|done].
              ** apply list_elem_of_singleton in Hv. by left.
        -- right. exists vs. split; [by right|done].
      * intros [[-> ->]|(vs & Hin & Hv)].
        -- eexists. split; [by left|].
           destruct (decide (v ∈ vs0)); [done|]. apply elem_of_app. right. by left.
        -- apply elem_of_cons in Hin as [[= -> ->]|Hin].
           ++ eexists. split; [by left|].
              destruct (decide (v ∈ vs0)); [done|]. apply elem_of_app. by left.
           ++ exists vs. split; [by right|done].
    + split.
      * intros (vs & Hin & Hv). apply elem_of_cons in Hin as [[= -> ->]|Hin].
        -- right. exists vs0. split; [by left|done].
        -- destruct (proj1 IH) as [?|(vs' & ? & ?)]; [by exists vs | by left |].
           right. exists vs'. split; [by right|done].
      * intros [Heq|(vs & Hin & Hv)].
        -- destruct (proj2 IH (or_introl Heq)) as (vs & ? & ?).
           exists vs. split; [by right|done].
        -- apply elem_of_cons in Hin as [[= -> ->]|Hin].
           ++ exists vs0. split; [by left|done].
           ++ destruct (proj2 IH) as (vs' & ? & ?); [right; by exists vs|].
              exists vs'. split; [by right|done].
Qed.

Lemma dict_add_keys (k k' : K) (v : V) (d : list (K * list V)) :
  k' ∈ map fst (dict_add k v d) <-> k' = k \/ k' ∈ map fst d.
Proof.
  induction d as [|[k0 vs0] d IH]; simpl.
  - rewrite list_elem_of_singleton. split; [by left|]. intros [?|H]; [done|].
    by apply elem_of_nil in H.
  - destruct (decide (k0 = k)) as [->|Hne]; simpl; rewrite !elem_of_cons.
    + split; [by right|]. intros [->|?]; [by left|done].
    + rewrite IH. tauto.
Qed.

Lemma dict_add_ok (k : K) (v : V) (d : list (K * list V)) :
  dict_ok d -> dict_ok (dict_add k v d).
Proof.
  unfold dict_ok. induction d as [|[k0 vs0] d IH]; simpl; intros [Hnd Hvs].
  - split; [apply NoDup_singleton|].
    intros k' vs Hin. apply list_elem_of_singleton in Hin as [= -> ->].
    split; [done|apply NoDup_singleton].
  - apply NoDup_cons in Hnd as [Hk0 Hnd].
    destruct (Hvs k0 vs0) as [Hne0 Hnd0]; [by left|].
    destruct (decide (k0 = k)) as [->|Hne]; simpl.
    + split; [by apply NoDup_cons|].
      intros k' vs Hin. apply elem_of_cons in Hin as [[= -> ->]|Hin].
      * destruct (decide (v ∈ vs0)); [done|]. split; [by destruct vs0|].
        apply NoDup_app. split; [done|]. split; [|apply NoDup_singleton].
        intros x Hx Hx'. apply list_elem_of_singleton in Hx' as ->. done.
      * apply (Hvs k'). by right.
    + assert (Hd : NoDup (map fst d)
                   /\ forall k' vs, (k', vs) ∈ d -> vs <> [] /\ NoDup vs).
      { split; [done|]. intros k' vs Hin. apply (Hvs k'). by right. }
      destruct (IH Hd) as [IHnd IHvs].
      split.
      * apply NoDup_cons. split; [|done]. rewrite dict_add_keys. by intros [?|?].
      * intros k' vs Hin. apply elem_of_cons in Hin as [[= -> ->]|Hin]; [done|].
        by apply (IHvs k').
Qed.
End Dict.

(** A loop whose body keeps [P] and leaves the state alone does so too. *)
Lemma for_each_invariant {S A B} (P : B -> Prop) (Q : A -> Prop)
    (body : A -> B -> M S B) (xs : list A) :
  (forall x acc s r s', Q x -> P acc -> body x acc s = (Ok r, s') -> P r /\ s' = s) ->
  (forall x, x ∈ xs -> Q x) ->
  forall acc s r s', P acc -> for_each xs body acc s = (Ok r, s') -> P r /\ s' = s.
Proof.
  intros Hbody. induction xs as [|x xs IH]; intros HQ acc s r s' HP Hrun.
  - simpl in Hrun. unfold ret in Hrun. by injection Hrun as <- <-.
  - simpl in Hrun. unfold bind in Hrun.
    destruct (body x acc s) as [[acc1|e] s1] eqn:Hstep; [|discriminate].
    destruct (Hbody x acc s acc1 s1) as [HP1 ->]; [apply HQ; by left | done | done |].
    apply (IH (fun y Hy => HQ y (proj2 (elem_of_cons _ _ _) (or_intror Hy)))
             acc1 s r s' HP1 Hrun).
Qed.

Lemma class_maps_ok_empty (n : nat) : class_maps_ok n ([], []).
Proof.
  unfold class_maps_ok, dict_ok, in_dict. cbn [fst snd map].
  split; [|split; [|split]].
  - intros c i. split; intros (vs & H & _); by apply elem_of_nil in H.
  - split; [apply NoDup_nil_2|]. intros k vs H. by apply elem_of_nil in H.
  - split; [apply NoDup_nil_2|]. intros k vs H. by apply elem_of_nil in H.
  - intros i H. by apply elem_of_nil in H.
Qed.

Lemma add_annotation_ok {S} (n : nat) (annotation_type : string) (i : Z) (a : annotation)
    (acc r : class_maps) (s s' : S) :
  0 <= i < Z.of_nat n -> class_maps_ok n acc ->
  add_annotation annotation_type i a acc s = (Ok r, s') ->
  class_maps_ok n r /\ s' = s.
Proof.
  intros Hi (Hinv & Hok1 & Hok2 & Hrange). unfold add_annotation.
  destruct (bool_decide _); [|unfold ret; by intros [= <- <-]].
  destruct (ann_name a) as [class_name|]; [|discriminate].
  unfold ret. intros [= <- <-]. split; [|done].
  unfold class_maps_ok. cbn [fst snd].
  split; [|split; [|split]].
  - intros c j. rewrite !in_dict_add, Hinv. tauto.
  - by apply dict_add_ok.
  - by apply dict_add_ok.
  - intros j Hj. apply dict_add_keys in Hj as [->|Hj]; [done | by apply Hrange].
Qed.

Lemma add_file_ok (n : nat) (annotation_type : string) (entry : Z * path)
    (acc r : class_maps) (s s' : fs) :
  0 <= fst entry < Z.of_nat n -> class_maps_ok n acc ->
  add_file annotation_type entry acc s = (Ok r, s') ->
  class_maps_ok n r /\ s' = s.
Proof.
  intros Hi Hok. unfold add_file, bind, load_annotations.
  destruct (stat s (snd entry)) as [[| |annotations|]|]; try discriminate.
  apply (for_each_invariant (class_maps_ok n) (fun _ => True)); [|done|done].
  intros a acc' s0 r' s0' _. by apply add_annotation_ok.
Qed.

Lemma elem_of_enumerate {A} (l : list A) (i : Z) (x : A) :
  (i, x) ∈ enumerate l -> 0 <= i < Z.of_nat (length l).
Proof.
  unfold enumerate. intros H. apply elem_of_zip_l in H.
  by apply (elem_of_py_range (length l) i).
Qed.

Lemma extract_classes_inv (annotations_path : path) (annotation_type : string)
    (s s' : fs) (classes : list (string * list Z)) (idx : idx_to_classes_t) :
  extract_classes annotations_path annotation_type s = (Ok (classes, idx), s') ->
  s' = s
  /\ exists annotation_files,
       glob_json annotations_path s = (Ok annotation_files, s)
       /\ class_maps_ok (length annotation_files) (classes, idx).
Proof.
  unfold extract_classes, bind at 1.
  destruct (glob_json annotations_path s) as [[files|e] s0] eqn:Hglob; [|discriminate].
  assert (s0 = s) as -> by (unfold glob_json in Hglob; by injection Hglob).
  intros Hrun.
  destruct (for_each_invariant (class_maps_ok (length files))
              (fun entry => 0 <= fst entry < Z.of_nat (length files))
              (add_file annotation_type) (enumerate files)) with
    (acc := ([], []) : class_maps) (s := s) (r := (classes, idx)) (s' := s')
    as [Hok ->]; try done.
  - intros entry acc s1 r s1'. apply add_file_ok.
  - intros [i x] Hin. by apply elem_of_enumerate in Hin.
  - apply class_maps_ok_empty.
  - split; [done|]. by exists files.
Qed.

(** When [extract_classes] returns, the store is as it was and the two
    dictionaries mirror each other: image [i] is listed under class [c]
    exactly when [c] is listed under image [i]. Keys are distinct, every set
    is non-empty and without repetition, and every image index is the
    position of a file of the listing. *)
Theorem extract_classes_maps (annotations_path : path) (annotation_type : string)
    (s s' : fs) (classes : list (string * list Z)) (idx : idx_to_classes_t) :
  extract_classes annotations_path annotation_type s = (Ok (classes, idx), s') ->
  s' = s
  /\ exists annotation_files,
       glob_json annotations_path s = (Ok annotation_files, s)
       /\ class_maps_ok (length annotation_files) (classes, idx).
Proof. apply extract_classes_inv. Qed.

Lemma extract_classes_maps_witness :
  fresh_store = fresh_store
  /\ exists annotation_files,
       glob_json ["ds"; "annotations"] fresh_store = (Ok annotation_files, fresh_store)
       /\ class_maps_ok (length annotation_files)
            ([("dog", [0]); ("cat", [0; 1])], [(0, ["dog"; "cat"]); (1, ["cat"])]).
Proof.
  apply (extract_classes_maps ["ds"; "annotations"] "tag" fresh_store fresh_store).
  vm_compute. reflexivity.
Defined.

Lemma expand_nonempty (idx : idx_to_classes_t) :
  idx <> [] -> (forall k vs, (k, vs) ∈ idx -> vs <> []) -> expand idx <> [].
Proof.
  destruct idx as [|[k vs] idx]; [done|]. intros _ Hvs.
  destruct vs as [|c vs]; [by destruct (Hvs k []); [left|]|].
  unfold expand. simpl. discriminate.
Qed.

(** The mapping [extract_classes] builds has no image without a class: when
    it is not empty, its expansion into rows is not empty either, so that
    [_stratify_samples], which [split_dataset] calls only on a non-empty
    mapping, does not fail on unpacking the rows. *)
Theorem extract_classes_rows (annotations_path : path) (annotation_type : string)
    (s s' : fs) (classes : list (string * list Z)) (idx : idx_to_classes_t) :
  extract_classes annotations_path annotation_type s = (Ok (classes, idx), s') ->
  idx <> [] ->
  exists file_indices labels,
    unzip_rows (expand idx) = Ok (file_indices, labels)
    /\ file_indices <> [] /\ length file_indices = length labels.
Proof.
  intros Hrun Hne.
  destruct (extract_classes_inv _ _ _ _ _ _ Hrun) as (_ & files & _ & _ & _ & [_ Hvs] & _).
  assert (Hrows : expand idx <> []).
  { apply expand_nonempty; [done|]. intros k vs Hin. by apply (Hvs k vs). }
  exists (map fst (expand idx)), (map snd (expand idx)).
  rewrite unzip_rows_ok by done. split; [done|]. split.
  - by destruct (expand idx).
  - by rewrite !length_map.
Qed.

Lemma extract_classes_rows_witness :
  exists file_indices labels,
    unzip_rows (expand [(0, ["dog"; "cat"]); (1, ["cat"])]) = Ok (file_indices, labels)
    /\ file_indices <> [] /\ length file_indices = length labels.
Proof.
  apply (extract_classes_rows ["ds"; "annotations"] "tag" fresh_store fresh_store
           [("dog", [0]); ("cat", [0; 1])]).
  - vm_compute. reflexivity.
  - discriminate.
Defined.

(** ** _stratify_samples: what is returned *)

Lemma mask_index_subseteq {A} (arr : list A) (mask : list bool) (r : list A) :
  mask_index arr mask = Ok r -> forall x, x ∈ r -> x ∈ arr.
Proof.
  revert mask r. induction arr as [|a arr IH]; intros [|b mask] r; simpl; try discriminate.
  - intros [= <-] x Hx. done.
  - destruct (mask_index arr mask) as [r'|e] eqn:E; [|discriminate].
    intros [= <-] x Hx. destruct b.
    + apply elem_of_cons in Hx as [->|Hx]; [by left|]. right. by eapply IH.
    + right. by eapply IH.
Qed.

Lemma repair_step_subseteq coin a st st' n n' :
  repair_step coin a st n = (Ok st', n') ->
  (forall v, v ∈ X_a st' -> v ∈ X_a st) /\ (forall v, v ∈ X_b st' -> v ∈ X_b st).
Proof.
  unfold repair_step. destruct (np_contains a (X_b st)); [|by intros [= <- <-]].
  unfold bind, flip, lift, ret. destruct (coin n).
  - destruct (mask_index (X_a st) _) as [Xa|] eqn:E1; [|discriminate].
    destruct (mask_index (y_a st) _) as [ya|]; [|discriminate].
    intros [= <- <-]. simpl. split; [|done]. by eapply mask_index_subseteq.
  - destruct (mask_index (X_b st) _) as [Xb|] eqn:E1; [|discriminate].
    destruct (mask_index (y_b st) _) as [yb|]; [|discriminate].
    intros [= <- <-]. simpl. split; [done|]. by eapply mask_index_subseteq.
Qed.

(** Whatever the lengths of the label arrays, what the repair returns
    holds only values of its inputs. *)
Lemma repair_loop_subseteq coin todo : forall st st' n n',
  for_each todo (repair_step coin) st n = (Ok st', n') ->
  (forall v, v ∈ X_a st' -> v ∈ X_a st) /\ (forall v, v ∈ X_b st' -> v ∈ X_b st).
Proof.
  induction todo as [|a todo IH]; intros st st' n n' Hrun; simpl in Hrun.
  - unfold ret in Hrun. by injection Hrun as <- <-.
  - unfold bind in Hrun.
    destruct (repair_step coin a st n) as [[st1|e] n1] eqn:Hstep; [|discriminate].
    destruct (repair_step_subseteq _ _ _ _ _ _ Hstep) as [Ha Hb].
    destruct (IH _ _ _ _ Hrun) as [Ha' Hb']. split; auto.
Qed.

Lemma split_and_repair_subseteq coin tts X y q seed n r n' :
  (forall X y q st a b c d, tts X y q seed st = Ok (a, b, c, d) ->
     forall v, v ∈ a \/ v ∈ b -> v ∈ X) ->
  split_and_repair coin tts X y q seed n = (Ok r, n') ->
  forall v, v ∈ X_a r \/ v ∈ X_b r -> v ∈ X.
Proof.
  intros Htts. unfold split_and_repair, bind, lift.
  destruct (tts X y q seed y) as [[[[a b] c] d]|e] eqn:E; [|discriminate].
  unfold remove_cross_contamination. intros Hrun v Hv.
  destruct (repair_loop_subseteq _ _ _ _ _ _ Hrun) as [Ha Hb]. simpl in Ha, Hb.
  apply (Htts _ _ _ _ _ _ _ _ E). destruct Hv; [left|right]; auto.
Qed.

Lemma elem_of_zip_first {A B} (ks : list A) (ls : list B) (k : A) :
  length ks = length ls -> k ∈ ks -> exists l, (k, l) ∈ zip ks ls.
Proof.
  revert ls. induction ks as [|k0 ks IH]; intros [|l0 ls] Hlen Hk; simpl in *; try lia.
  - by apply elem_of_nil in Hk.
  - apply elem_of_cons in Hk as [->|Hk]; [exists l0; by left|].
    destruct (IH ls) as [l Hl]; [lia | done |]. exists l. by right.
Qed.

Lemma elem_of_expand_key (idx : idx_to_classes_t) (k : Z) :
  k ∈ map fst (expand idx) -> k ∈ map fst idx.
Proof.
  unfold expand. rewrite !list_elem_of_In, !in_map_iff.
  intros ([k' c] & <- & Hin). apply in_flat_map in Hin as ([k0 vs] & Hkv & Hc).
  apply in_map_iff in Hc as (c' & [= <- <-] & _). by exists (k0, vs).
Qed.

(** [_stratify_samples] after its loop, with where the files set aside and
    the rows left come from. *)
Lemma stratify_unfold_keys coin tts idx seed tp vp n :
  expand idx <> [] ->
  exists ks rows',
    (forall k, k ∈ ks -> k ∈ map fst idx)
    /\ (forall k, k ∈ map fst rows' -> k ∈ map fst idx)
    /\ _stratify_samples coin tts idx seed tp vp n =
         match rows' with
         | [] => (Ok ([], [], Some []), n)
         | _ => stratify_rest coin tts ks rows' seed tp vp n
         end.
Proof.
  intros Hne.
  destruct (singles_loop (singleton_labels (map snd (expand idx))) (expand idx) [] n)
    as (ks & rows' & Hrun & Hperm & Hlen).
  { apply NoDup_singleton_labels. }
  { intros l Hl. by apply elem_of_singleton_labels in Hl as [Hl _]. }
  exists ks, rows'. split; [|split].
  - intros k Hk. apply elem_of_expand_key.
    destruct (elem_of_zip_first ks _ k Hlen Hk) as [l Hl].
    apply list_elem_of_In, in_map_iff. exists (k, l). split; [done|].
    apply list_elem_of_In. rewrite Hperm. apply elem_of_app. by left.
  - intros k Hk. apply elem_of_expand_key.
    apply list_elem_of_In, in_map_iff in Hk as ([k' l] & <- & Hin).
    apply list_elem_of_In, in_map_iff. exists (k', l). split; [done|].
    apply list_elem_of_In. rewrite Hperm. apply elem_of_app. right.
    by apply list_elem_of_In.
  - unfold _stratify_samples, bind at 1, lift. rewrite unzip_rows_ok by done.
    unfold bind at 1. simpl fst. simpl snd. rewrite Hrun.
    destruct rows' as [|r rows']; [reflexivity|].
    cbn [file_indices labels single_files]. rewrite !length_map.
    reflexivity.
Qed.

Lemma NoDup_list_set (X : list Z) : NoDup (list_set X).
Proof. unfold list_set. apply NoDup_elements. Qed.

(** With a library whose parts hold only values of the array it is given:
    every index [_stratify_samples] returns is an image index of the
    mapping, and no returned list holds an index twice. *)
Theorem stratify_returns_image_indices coin tts idx seed tp vp n train val test n' :
  (forall X y q st a b c d, tts X y q seed st = Ok (a, b, c, d) ->
     forall v, v ∈ a \/ v ∈ b -> v ∈ X) ->
  _stratify_samples coin tts idx seed tp vp n = (Ok (train, val, test), n') ->
  NoDup train /\ NoDup val /\ (forall t, test = Some t -> NoDup t)
  /\ forall i, (i ∈ train \/ i ∈ val \/ exists t, test = Some t /\ i ∈ t) ->
       i ∈ map fst idx.
Proof.
  intros Htts Hrun.
  destruct (decide (expand idx = [])) as [Hnil|Hne].
  { unfold _stratify_samples, bind, lift in Hrun. rewrite Hnil in Hrun. discriminate. }
  destruct (stratify_unfold_keys coin tts idx seed tp vp n Hne) as (ks & rows' & Hks & Hrows & E).
  rewrite E in Hrun. clear E. destruct rows' as [|r rows'].
  { injection Hrun as <- <- <- <-. repeat split; try apply NoDup_nil_2.
    - by intros t [= <-]; apply NoDup_nil_2.
    - intros i [H|[H|(t & [= <-] & H)]]; by apply elem_of_nil in H. }
  unfold stratify_rest, bind in Hrun.
  destruct (split_and_repair _ _ _ _ _ _ n) as [[s1|e] n1] eqn:E1; [|discriminate].
  pose proof (split_and_repair_subseteq _ _ _ _ _ _ _ _ _ Htts E1) as H1.
  assert (Htrain : forall i, i ∈ list_set (X_a s1 ++ ks) -> i ∈ map fst idx).
  { intros i Hi. rewrite elem_of_list_set in Hi.
    apply elem_of_app in Hi as [Hi|Hi]; [|by apply Hks].
    apply Hrows, H1. by left. }
  destruct (Qeq_bool tp 0).
  - unfold ret in Hrun. injection Hrun as <- <- <- <-.
    split; [apply NoDup_list_set|]. split; [apply NoDup_list_set|]. split; [done|].
    intros i [H|[H|(t & [=] & _)]]; [by apply Htrain|].
    rewrite elem_of_list_set in H. apply Hrows, H1. by right.
  - destruct (split_and_repair _ _ _ _ _ _ n1) as [[s2|e] n2] eqn:E2; [|discriminate].
    pose proof (split_and_repair_subseteq _ _ _ _ _ _ _ _ _ Htts E2) as H2.
    unfold ret in Hrun. injection Hrun as <- <- <- <-.
    split; [apply NoDup_list_set|]. split; [apply NoDup_list_set|].
    split; [intros t [= <-]; apply NoDup_list_set|].
    intros i [H|[H|(t & [= <-] & H)]]; [by apply Htrain| |];
      rewrite elem_of_list_set in H; apply Hrows, H1; right; apply H2; [by left|by right].
Qed.

Lemma tail_split_parts X y q seed st a b c d :
  tail_split X y q seed st = Ok (a, b, c, d) -> forall v, v ∈ a \/ v ∈ b -> v ∈ X.
Proof.
  unfold tail_split. destruct (negb _); [discriminate|].
  destruct (Nat.eqb _ 0); [discriminate|]. intros [= <- <- <- <-] v [Hv|Hv].
  - apply elem_of_take in Hv as (i & Hv & _). by eapply list_elem_of_lookup_2.
  - apply list_elem_of_lookup in Hv as [i Hv]. rewrite lookup_drop in Hv.
    by eapply list_elem_of_lookup_2.
Qed.

Lemma stratify_returns_image_indices_witness :
  NoDup [1; 0] /\ NoDup [1] /\ (forall t : list Z, None = Some t -> NoDup t)
  /\ forall i, (i ∈ [1; 0] \/ i ∈ [1] \/ exists t : list Z, None = Some t /\ i ∈ t) ->
       i ∈ map fst two_rare.
Proof.
  apply (stratify_returns_image_indices (fun _ => true) tail_split two_rare 0 0 (1 # 2)
           0%nat [1; 0] [1] None 0%nat).
  - intros X y q st a b c d. apply tail_split_parts.
  - reflexivity.
Defined.

(** ** make_class_lists and get_classes *)

Lemma text_lines_plain (c : ascii) (rest : string) :
  Ascii.eqb c lf = false -> Ascii.eqb c cr = false ->
  text_lines (String c rest)
  = match text_lines rest with
    | [] => [String c ""]
    | l :: ls => String c l :: ls
    end.
Proof. intros Hlf Hcr. cbn [text_lines]. by rewrite Hlf, Hcr. Qed.

Lemma line_free_cons (c : ascii) (rest : string) :
  line_free (String c rest) = true ->
  Ascii.eqb c lf = false /\ Ascii.eqb c cr = false /\ line_free rest = true.
Proof.
  cbn [line_free]. intros H. apply andb_true_iff in H as [H Hrest].
  apply andb_true_iff in H as [Hlf Hcr].
  apply negb_true_iff in Hlf, Hcr. done.
Qed.

(** A text without line end is one line. *)
Lemma text_lines_line_free (x : string) :
  line_free x = true -> x <> "" -> text_lines x = [x].
Proof.
  induction x as [|c r IH]; [done|]. intros Hfree _.
  apply line_free_cons in Hfree as (Hlf & Hcr & Hr).
  rewrite text_lines_plain by done.
  destruct r as [|c' r']; [done|]. by rewrite IH.
Qed.

Lemma text_lines_line (x rest : string) :
  line_free x = true ->
  text_lines (x +:+ newline +:+ rest) = (x +:+ newline) :: text_lines rest.
Proof.
  induction x as [|c r IH]; intros Hfree.
  - rewrite !string_app_nil_l. reflexivity.
  - apply line_free_cons in Hfree as (Hlf & Hcr & Hr).
    rewrite !string_app_cons, text_lines_plain by done. by rewrite IH.
Qed.

Lemma clean_name_head (x : string) :
  clean_name x -> exists c w, x = String c w /\ is_space c = false /\ rstrip x = x.
Proof.
  intros (Hne & _ & Hstrip). unfold strip in Hstrip.
  destruct (lstrip_head x) as [E|(c & t & E & Hc)].
  - rewrite E in Hstrip. by symmetry in Hstrip.
  - rewrite E in Hstrip. destruct (rstrip_head c t Hc) as [w Hw].
    rewrite Hw in Hstrip. exists c, w. split; [done|]. split; [done|].
    assert (Hl : lstrip x = x) by (rewrite <- Hstrip; simpl; by rewrite Hc).
    rewrite Hl in E. rewrite <- E in Hw. by rewrite Hw.
Qed.

(** Stripping gives a clean name back from the line that holds it. *)
Lemma strip_clean_line (x : string) : clean_name x -> strip (x +:+ newline) = x.
Proof.
  intros Hclean. destruct (clean_name_head x Hclean) as (c & w & -> & Hc & Hr).
  unfold strip. rewrite string_app_cons. simpl lstrip. rewrite Hc.
  rewrite <- string_app_cons. unfold rstrip in *.
  rewrite string_rev_app. change (String.rev newline) with newline.
  unfold newline at 1. rewrite string_app_cons, string_app_nil_l.
  simpl lstrip. exact Hr.
Qed.

(** Names joined by newlines, read back line by line and stripped. *)
Lemma strip_joined_names (names : list string) :
  Forall clean_name names ->
  map strip (text_lines (String.concat newline names)) = names.
Proof.
  induction names as [|x names IH]; intros Hall; [reflexivity|].
  apply Forall_cons in Hall as [Hx Hall].
  destruct names as [|y names].
  - simpl String.concat. destruct Hx as (Hne & Hfree & Hstrip).
    rewrite text_lines_line_free by done. simpl. by rewrite Hstrip.
  - change (String.concat newline (x :: y :: names))
      with (x +:+ newline +:+ String.concat newline (y :: names)).
    rewrite text_lines_line by (by destruct Hx as (_ & ? & _)).
    cbn [map]. rewrite (IH Hall), strip_clean_line by done. done.
Qed.

Lemma realpath_not_link (fuel : nat) (s : fs) (p : path) :
  (forall t, s !! p <> Some (Symlink t)) -> realpath fuel s p = Some p.
Proof.
  intros H. destruct fuel; simpl; destruct (s !! p) as [[| | |t]|] eqn:E; try done;
    by destruct (H t).
Qed.

Lemma stat_not_link (s : fs) (p : path) :
  p <> [] -> (forall t, s !! p <> Some (Symlink t)) -> stat s p = s !! p.
Proof.
  intros Hp H. unfold stat. destruct p as [|c p]; [done|].
  by rewrite realpath_not_link.
Qed.

Lemma is_dir_lookup (s : fs) (p : path) : s !! p = Some Dir -> is_dir s p = true.
Proof.
  intros H. unfold is_dir, stat. destruct p as [|c p]; [done|].
  rewrite realpath_not_link by (intros t; by rewrite H). by rewrite H.
Qed.

(** One turn of the loop of [make_class_lists], with the lists directory
    in place and a list file that is not a link: the classes are read, and
    when there are some, the file holds their sorted names, one per line
    but the last without line end. *)
Lemma write_class_list_spec (annotations_path lists_path : path)
    (annotation_type : string) (s s' : fs) :
  s !! lists_path = Some Dir ->
  (forall t, s !! (lists_path ++ ["classes_" +:+ annotation_type +:+ ".txt"])
             <> Some (Symlink t)) ->
  write_class_list annotations_path lists_path annotation_type tt s = (Ok tt, s') ->
  exists classes idx,
    extract_classes annotations_path annotation_type s = (Ok (classes, idx), s)
    /\ s' = match classes with
            | [] => s
            | _ => <[lists_path ++ ["classes_" +:+ annotation_type +:+ ".txt"]
                     := TextFile (text_lines
                          (String.concat newline (merge_sort String.le (map fst classes))))]> s
            end.
Proof.
  intros Hlists Hlink. unfold write_class_list, bind at 1.
  destruct (extract_classes annotations_path annotation_type s)
    as [[[classes idx]|e] s0] eqn:Hext; [|discriminate].
  destruct (extract_classes_inv _ _ _ _ _ _ Hext) as [-> _].
  intros Hrun. exists classes, idx. split; [done|]. cbn [fst] in Hrun.
  destruct classes as [|c classes]; [by injection Hrun as <-|].
  cbn [map length Nat.ltb Nat.leb] in Hrun.
  unfold bind, open_w in Hrun.
  rewrite realpath_not_link, parent_snoc, (is_dir_lookup _ _ Hlists) in Hrun by done.
  cbn [negb] in Hrun. unfold write_text in Hrun.
  destruct (s !! (lists_path ++ ["classes_" +:+ annotation_type +:+ ".txt"]))
    as [[| | |]|]; try discriminate;
    rewrite lookup_insert_eq, insert_insert_eq in Hrun; by injection Hrun as <-.
Qed.

(** What [make_class_lists] writes, [get_classes] reads back. With the
    lists directory in place and list files that are not links, when
    [make_class_lists] returns and the dataset has tag classes whose names
    are clean, [get_classes] for tags, the background kept, then returns
    exactly those names in sorted order. *)
Theorem make_class_lists_round_trip (dataset_path : path) (s s0 s' : fs)
    (classes : list (string * list Z)) (idx : idx_to_classes_t) :
  s !! (dataset_path ++ ["lists"]) = Some Dir ->
  (forall t, s !! ((dataset_path ++ ["lists"]) ++ ["classes_tag.txt"]) <> Some (Symlink t)) ->
  (forall t, s !! ((dataset_path ++ ["lists"]) ++ ["classes_polygon.txt"])
             <> Some (Symlink t)) ->
  extract_classes (dataset_path ++ ["annotations"]) "tag" s = (Ok (classes, idx), s0) ->
  classes <> [] ->
  (forall name, name ∈ map fst classes -> clean_name name) ->
  make_class_lists (Some dataset_path) s = (Ok tt, s') ->
  get_classes (Some dataset_path) "tag" false s'
  = (Ok (merge_sort String.le (map fst classes)), s').
Proof.
  intros Hlists Htag Hpoly Hext Hne Hclean Hrun.
  set (lists_path := dataset_path ++ ["lists"]) in *.
  set (tag_file := lists_path ++ ["classes_tag.txt"]) in *.
  set (polygon_file := lists_path ++ ["classes_polygon.txt"]) in *.
  set (sorted := merge_sort String.le (map fst classes)).
  assert (Hfiles : tag_file <> polygon_file).
  { unfold tag_file, polygon_file. intros H. by apply app_inv_head in H. }
  assert (Hnl : tag_file <> lists_path).
  { unfold tag_file. intros H. apply (f_equal length) in H.
    rewrite length_app in H. simpl in H. lia. }
  (* the run of make_class_lists *)
  unfold make_class_lists, bind at 1, path_exists in Hrun.
  destruct (bool_decide _); [|discriminate]. change (negb true) with false in Hrun.
  cbv beta iota in Hrun. unfold bind at 1, mkdir_exist_ok in Hrun. fold lists_path in Hrun.
  rewrite Hlists, (is_dir_lookup _ _ Hlists) in Hrun.
  cbn [for_each] in Hrun. unfold bind at 1 in Hrun.
  destruct (write_class_list _ lists_path "tag" tt s) as [[[]|e] s1] eqn:Hw1; [|discriminate].
  destruct (write_class_list_spec _ lists_path "tag" s s1 Hlists Htag Hw1)
    as (classes1 & idx1 & Hext1 & Hs1).
  rewrite Hext in Hext1. injection Hext1 as <- <- _.
  assert (Hs1' : s1 = <[tag_file := TextFile (text_lines (String.concat newline sorted))]> s).
  { rewrite Hs1. by destruct classes. }
  clear Hs1. unfold bind at 1 in Hrun.
  destruct (write_class_list _ lists_path "polygon" tt s1) as [[[]|e] s2] eqn:Hw2;
    [|discriminate].
  unfold ret in Hrun. injection Hrun as <-.
  assert (Hlists1 : s1 !! lists_path = Some Dir) by (by rewrite Hs1', lookup_insert_ne).
  assert (Hpoly1 : forall t, s1 !! polygon_file <> Some (Symlink t)).
  { intros t. rewrite Hs1', lookup_insert_ne by done. apply Hpoly. }
  destruct (write_class_list_spec _ lists_path "polygon" s1 s2 Hlists1 Hpoly1 Hw2)
    as (classes2 & idx2 & _ & Hs2).
  assert (Hfile : s2 !! tag_file = Some (TextFile (text_lines (String.concat newline sorted)))).
  { rewrite Hs2. destruct classes2; [|rewrite lookup_insert_ne by done];
      by rewrite Hs1', lookup_insert_eq. }
  (* the read *)
  unfold get_classes, bind, read_lines.
  replace (dataset_path ++ ["lists"; "classes_" +:+ "tag" +:+ ".txt"]) with tag_file
    by (unfold tag_file, lists_path; by rewrite <- app_assoc).
  assert (Hstat : stat s2 tag_file = Some (TextFile (text_lines (String.concat newline sorted)))).
  { rewrite stat_not_link; [done | | intros t; by rewrite Hfile].
    unfold tag_file. by destruct lists_path. }
  rewrite Hstat. unfold ret. f_equal. f_equal.
  apply strip_joined_names. apply Forall_forall. intros name Hname.
  apply Hclean. unfold sorted in Hname. by rewrite merge_sort_Permutation in Hname.
Qed.

Lemma make_class_lists_round_trip_witness :
  get_classes (Some ["ds"]) "tag" false (snd (make_class_lists (Some ["ds"]) lists_store))
  = (Ok (merge_sort String.le (map fst [("dog", [0]); ("cat", [0; 1])])),
     snd (make_class_lists (Some ["ds"]) lists_store)).
Proof.
  apply (make_class_lists_round_trip ["ds"] lists_store lists_store
           (snd (make_class_lists (Some ["ds"]) lists_store))
           [("dog", [0]); ("cat", [0; 1])] [(0, ["dog"; "cat"]); (1, ["cat"])]).
  - reflexivity.
  - intros t. vm_compute. discriminate.
  - intros t. vm_compute. discriminate.
  - vm_compute. reflexivity.
  - discriminate.
  - intros name Hname. simpl in Hname.
    apply elem_of_cons in Hname as [->|Hname]; [by repeat split|].
    apply elem_of_cons in Hname as [->|Hname]; [by repeat split|].
    by apply elem_of_nil in Hname.
  - vm_compute. reflexivity.
Defined.

Lemma repair_exactly_one_side_witness :
  exists r,
    remove_cross_contamination (fun k => Nat.even k) [1; 2; 3] [3; 4; 2]
      ["cat"; "dog"; "owl"] ["dog"; "fox"; "owl"] 0%nat
      = (Ok r, Nat.add 0 (length (List.filter (fun a => np_contains a [3; 4; 2]) [1; 2; 3])))
    /\ (forall v, v ∈ [1; 2; 3] -> v ∈ [3; 4; 2] ->
          (v ∈ X_a r /\ (v ∉ X_b r)) \/ ((v ∉ X_a r) /\ v ∈ X_b r))
    /\ (forall v, ~ (v ∈ [1; 2; 3] /\ v ∈ [3; 4; 2]) ->
          (v ∈ X_a r <-> v ∈ [1; 2; 3]) /\ (v ∈ X_b r <-> v ∈ [3; 4; 2])).
Proof.
  apply repair_exactly_one_side; [|reflexivity..].
  apply NoDup_ListNoDup. repeat constructor; simpl; intuition lia.
Defined.
